(** * X-AnyLabeling-Server: model plugin and mask-to-polygon post-processing

    A shallow embedding of [app/models/__init__.py] ([BaseModel],
    [parse_prompts]) and [app/models/yolo11n_seg.py] ([YOLO11nSegmentation]).

    Conventions of the embedding:
    - a Python [dict] with string keys is a [gmap string _];
    - a raised exception is the [Err] branch of [outcome], carrying the
      exception's class name;
    - a Python [float] that the code only copies is a [float] ([Fin q] or
      [NaN]); the arithmetic the code performs on mask values is done on
      rationals, every finite binary floating-point number being one;
    - OpenCV ([cv2]) and the segmentation network (ultralytics) are not
      part of the repository: they enter as a record of functions and as
      an opaque [Model]. *)

From Stdlib Require Import ZArith QArith Qround Bool Ascii String List Lia.
From stdpp Require Import gmap strings list fin_maps.

Local Open Scope string_scope.
Local Open Scope Z_scope.
Local Open Scope list_scope.

(** ** Exceptions and the error monad *)

Inductive exn : Type := Exception (cls : string).

Definition AttributeError : exn := Exception "AttributeError".
Definition KeyError : exn := Exception "KeyError".
Definition IndexError : exn := Exception "IndexError".
Definition TypeError : exn := Exception "TypeError".
Definition ValueError : exn := Exception "ValueError".
Definition OverflowError : exn := Exception "OverflowError".
Definition re_error : exn := Exception "re.error".
Definition cv2_error : exn := Exception "cv2.error".

(** The error class the specification names for [predict] on a plugin that
    is not loaded.  No statement of the source raises it. *)
Definition NotLoadedError : exn := Exception "NotLoadedError".

Inductive outcome (A : Type) : Type :=
| Ok (a : A)
| Err (e : exn).
Arguments Ok {A} a.
Arguments Err {A} e.

Definition bind {A B : Type} (m : outcome A) (k : A -> outcome B) : outcome B :=
  match m with
  | Ok a => k a
  | Err e => Err e
  end.

Notation "'do' x <- m ; k" := (bind m (fun x => k))
  (at level 10, x name, m at level 100, k at level 200).

Definition is_ok {A : Type} (m : outcome A) : bool :=
  match m with Ok _ => true | Err _ => false end.

(** [for x in xs: body] where every iteration appends to one accumulator
    and an exception leaves the loop (and the function) at once. *)
Fixpoint for_each {A S : Type} (body : S -> A -> outcome S) (xs : list A)
    (acc : S) : outcome S :=
  match xs with
  | [] => Ok acc
  | x :: xs' => do acc' <- body acc x; for_each body xs' acc'
  end.

(** ** Python values held in parameter dictionaries *)

(** [VInt] is an [int], [VNum] a finite [float]. *)
Inductive value : Type :=
| VNone
| VBool (b : bool)
| VInt (z : Z)
| VNum (q : Q)
| VStr (s : string).

(** Truth value of an object, as tested by [if show_boxes:]. *)
Definition truthy (v : value) : bool :=
  match v with
  | VNone => false
  | VBool b => b
  | VInt z => negb (z =? 0)
  | VNum q => negb (Qeq_bool q 0)
  | VStr s => negb (String.eqb s "")
  end.

(** The number a value is in a comparison with a number ([bool] is a
    subclass of [int]; an [int] compares exactly); [None] and [str] raise
    [TypeError]. *)
Definition to_number (v : value) : outcome Q :=
  match v with
  | VBool b => Ok (if b then 1%Q else 0%Q)
  | VInt z => Ok (inject_Z z)
  | VNum q => Ok q
  | VNone | VStr _ => Err TypeError
  end.

(** [x < y] on finite floats. *)
Definition Qltb (x y : Q) : bool := negb (Qle_bool y x).

(** [v > 0] *)
Definition gt_zero (v : value) : outcome bool :=
  do x <- to_number v; Ok (Qltb 0 x).

(** The [float] an [int] is converted to when it meets a float operand:
    the nearest binary64 number, a tie going to the even mantissa;
    [OverflowError] ("int too large to convert to float") when that is
    2^1024 or more. *)
Definition float_of_int (z : Z) : outcome Q :=
  let a := Z.abs z in
  let bits := Z.log2 a + 1 in
  let shift := Z.max 0 (bits - 53) in
  let q := Z.shiftr a shift in
  let r := a - Z.shiftl q shift in
  let half := Z.shiftl 1 (shift - 1) in
  let q' :=
    if (0 <? shift) && ((half <? r) || ((r =? half) && Z.odd q))
    then q + 1 else q in
  let m := Z.shiftl q' shift in
  if 2 ^ 1024 <=? m then Err OverflowError
  else Ok (inject_Z (Z.sgn z * m)).

(** [v * x] for a float [x].  The product of two floats is taken exactly
    (a binary64 product is this number rounded once). *)
Definition times_float (v : value) (x : Q) : outcome Q :=
  match v with
  | VBool b => Ok ((if b then 1 else 0) * x)%Q
  | VInt z => do f <- float_of_int z; Ok (f * x)%Q
  | VNum q => Ok (q * x)%Q
  | VNone | VStr _ => Err TypeError
  end.

(** [d.get(key, default)] *)
Definition get {V : Type} (d : gmap string V) (key : string) (default : V) : V :=
  match d !! key with
  | Some v => v
  | None => default
  end.

(** ** Floats that are only copied *)

Inductive float : Type :=
| Fin (q : Q)
| NaN.

(** Truncation toward zero, the rounding of [int(x)] and of a C cast. *)
Definition trunc (q : Q) : Z := Z.quot (Qnum q) (Z.pos (Qden q)).

(** [int(x)] for a float [x]: [int(float('nan'))] raises [ValueError]. *)
Definition int (x : float) : outcome Z :=
  match x with
  | Fin q => Ok (trunc q)
  | NaN => Err ValueError
  end.

(** ** Arrays *)

(** A 2-D [float32] array, row by row; [shape] is (rows, columns). *)
Definition Mask : Type := list (list Q).
(** A 2-D [uint8] array. *)
Definition Mask8 : Type := list (list Z).
(** A BGR image: rows of pixels. *)
Definition Image : Type := list (list (Z * Z * Z)).

Definition shape2 {A : Type} (a : list (list A)) : nat * nat :=
  (length a, match a with [] => 0%nat | row :: _ => length row end).

(** An integer contour as OpenCV returns it, and the [float32] points made
    of it. *)
Definition Contour : Type := list (Z * Z).
Definition Point : Type := (Q * Q)%type.

(** ** The OpenCV functions the plugin calls *)

Record Cv2 : Type := {
  findContours : Mask8 -> list Contour;   (* RETR_EXTERNAL, CHAIN_APPROX_SIMPLE *)
  contourArea : Contour -> Q;
  arcLength : Contour -> Q;               (* closed = True *)
  approxPolyDP : Contour -> Q -> outcome Contour; (* closed = True *)
  resize : Mask -> nat -> nat -> outcome Mask (* dsize = (w, h), INTER_LINEAR *)
}.

(** [findContours] treats every non-zero pixel of its 8-bit input as
    foreground (OpenCV documentation of [findContours]). *)
Definition foreground (px : Z) : bool := negb (px =? 0).

(** ** [YOLO11nSegmentation.mask_to_polygon] *)

(** [x.astype(np.uint8)] for one element: truncate, keep the low 8 bits. *)
Definition astype_uint8 (x : Q) : Z := trunc x mod 256.

(** [(mask * 255).astype(np.uint8)] *)
Definition to_mask_uint8 (mask : Mask) : Mask8 :=
  map (map (fun v => astype_uint8 (v * 255)%Q)) mask.

(** [max(xs, key=key)]: the first element whose key is maximal. *)
Fixpoint max_by {A : Type} (key : A -> Q) (best : A) (xs : list A) : A :=
  match xs with
  | [] => best
  | x :: xs' =>
      if Qltb (key best) (key x) then max_by key x xs'
      else max_by key best xs'
  end.

(** [contour.reshape(-1, 2).astype(np.float32)]; pixel coordinates are far
    below 2^24, so the conversion is exact. *)
Definition to_points (contour : Contour) : list Point :=
  map (fun p => (inject_Z (fst p), inject_Z (snd p))) contour.

Section Plugin.

Context (cv2 : Cv2).

(** Lines 27-29: the contour is simplified only for a positive
    [epsilon_factor]; the product and [cv2.approxPolyDP] may raise. *)
Definition approx_contour (contour : Contour) (epsilon_factor : value)
    : outcome Contour :=
  do positive <- gt_zero epsilon_factor;
  if positive then
    do epsilon <- times_float epsilon_factor (arcLength cv2 contour);
    approxPolyDP cv2 contour epsilon
  else Ok contour.

Definition mask_to_polygon (mask : Mask) (epsilon_factor : value)
    : outcome (list Point) :=
  let mask_uint8 := to_mask_uint8 mask in
  match findContours cv2 mask_uint8 with
  | [] => Ok []
  | c0 :: cs =>
      let contour := max_by (contourArea cv2) c0 cs in
      do contour <- approx_contour contour epsilon_factor;
      Ok (to_points contour)
  end.

(** ** The wrapped network and its results *)

(** One row of [result.boxes]: [xyxy[0]], [conf[0]] and [cls[0]]. *)
Record Box : Type := {
  xyxy : float * float * float * float;
  conf : float;
  cls : float
}.

(** One element of the sequence the network returns.  [masks = None]
    stands both for a missing attribute and for [result.masks is None];
    [masks = Some d] is [result.masks.data.cpu().numpy()]. *)
Record Result : Type := {
  boxes : option (list Box);
  masks : option (list Mask);
  names : gmap Z string
}.

(** The object [YOLO(model_path)] returns: [model.to(device)] and the call
    [model(image, conf=.., iou=.., verbose=False)]; the keyword arguments
    are absent in the warm-up call of [load]. *)
Record Model : Type := {
  to : value -> outcome unit;
  call : Image -> option value -> option value -> outcome (list Result)
}.

(** Modelled from the spec: [app.schemas.shape.Shape] is not among the
    sources.  The four attributes [predict] passes to its constructor; the
    others (attributes, description, difficult, direction, flags, group_id,
    kie_linking) are optional and keep their empty defaults. *)
Record Shape : Type := {
  label : string;
  shape_type : string;
  points : list (float * float);
  score : float
}.

(** The dictionary [predict] returns. *)
Record Prediction : Type := {
  shapes : list Shape;
  description : string
}.

(** ** [BaseModel] *)

(** The configuration dictionary of [auto_labeling/{model_id}.yaml], one
    optional entry per key the class reads. *)
Record Config : Type := {
  cfg_model_id : option string;
  cfg_display_name : option string;
  cfg_params : option (gmap string value);
  cfg_widgets : option (list value);
  cfg_batch_processing_mode : option value
}.

(** The instance attributes.  [model = None]: the instance has no
    attribute [model] ([hasattr(self, "model")] is false). *)
Record Plugin : Type := {
  config : Config;
  model_id : string;
  display_name : string;
  params : gmap string value;
  model : option Model
}.

(** [d[key]] *)
Definition subscript {V : Type} (entry : option V) : outcome V :=
  match entry with
  | Some v => Ok v
  | None => Err KeyError
  end.

(** [BaseModel.__init__] *)
Definition init (config : Config) : outcome Plugin :=
  do model_id <- subscript (cfg_model_id config);
  do display_name <- subscript (cfg_display_name config);
  Ok {| config := config;
        model_id := model_id;
        display_name := display_name;
        params := match cfg_params config with Some d => d | None => ∅ end;
        model := None |}.

Definition set_model (self : Plugin) (m : option Model) : Plugin :=
  {| config := config self;
     model_id := model_id self;
     display_name := display_name self;
     params := params self;
     model := m |}.

(** ** [YOLO11nSegmentation.load] and [unload] *)

(** [np.zeros((640, 640, 3), dtype=np.uint8)] *)
Definition dummy_img : Image := repeat (repeat (0, 0, 0) 640) 640.

(** [from ultralytics import YOLO]: the import itself may fail. *)
Context (import_YOLO : outcome (value -> outcome Model)).

(** [load] returns the instance as the call leaves it, also when it
    raises: [self.model] is assigned before [to] and the warm-up run. *)
Definition load (self : Plugin) : Plugin * outcome unit :=
  match import_YOLO with
  | Err e => (self, Err e)
  | Ok YOLO =>
      let model_path := get (params self) "model_path" (VStr "yolo11n-seg.pt") in
      let device := get (params self) "device" (VStr "cpu") in
      match YOLO model_path with
      | Err e => (self, Err e)
      | Ok m =>
          let self := set_model self (Some m) in
          (self,
           do _ <- to m device;
           do _ <- call m dummy_img None None;
           Ok tt)
      end
  end.

Definition unload (self : Plugin) : Plugin :=
  match model self with
  | Some _ => set_model self None
  | None => self
  end.

(** ** [YOLO11nSegmentation.predict] *)

(** [a == b] on floats. *)
Definition float_eqb (a b : float) : bool :=
  match a, b with
  | Fin x, Fin y => Qeq_bool x y
  | _, _ => false
  end.

(** [p == q] for two points [[x, y]].  The points compared in [predict]
    come from integer contours and are finite. *)
Definition point_eqb (p q : float * float) : bool :=
  float_eqb (fst p) (fst q) && float_eqb (snd p) (snd q).

(** Lines 103-104: [if points_list and points_list[0] != points_list[-1]:
    points_list.append(points_list[0])]. *)
Definition close_ring (points_list : list (float * float))
    : list (float * float) :=
  match points_list with
  | [] => points_list
  | p0 :: _ =>
      if negb (point_eqb p0 (List.last points_list p0))
      then points_list ++ [p0]
      else points_list
  end.

(** The four corners listed for a rectangle shape. *)
Definition rectangle_points (b : float * float * float * float)
    : list (float * float) :=
  let '(x0, y0, x1, y1) := b in
  [(x0, y0); (x1, y0); (x1, y1); (x0, y1)].

(** [boxes[i]]: [boxes] may be [None], the index may be out of range. *)
Definition box_at (bs : option (list Box)) (i : nat) : outcome Box :=
  match bs with
  | None => Err TypeError
  | Some l =>
      match l !! i with
      | Some b => Ok b
      | None => Err IndexError
      end
  end.

(** [enumerate(xs)] *)
Definition enumerate {A : Type} (xs : list A) : list (nat * A) :=
  combine (seq 0 (length xs)) xs.

(** Lines 89-95: the mask is resampled only when its shape differs from
    the image's. *)
Definition resample (mask : Mask) (orig_h orig_w : nat) : outcome Mask :=
  let '(mask_h, mask_w) := shape2 mask in
  if negb (mask_h =? orig_h)%nat || negb (mask_w =? orig_w)%nat
  then resize cv2 mask orig_w orig_h
  else Ok mask.

(** [Shape(label=label, shape_type="rectangle", points=[...], score=conf)] *)
Definition bbox_shape (label : string) (box : Box) (conf : float) : Shape :=
  {| label := label; shape_type := "rectangle";
     points := rectangle_points (xyxy box); score := conf |}.

(** [Shape(label=label, shape_type="polygon", points=points_list,
    score=conf)] *)
Definition mask_shape (label : string) (points_list : list (float * float))
    (conf : float) : Shape :=
  {| label := label; shape_type := "polygon";
     points := points_list; score := conf |}.

(** [[[float(x), float(y)] for x, y in points]] *)
Definition float_points (points : list Point) : list (float * float) :=
  map (fun p : Point => (Fin (fst p), Fin (snd p))) points.

(** Body of [for i, mask in enumerate(mask_data)], lines 85-127. *)
Definition mask_instance (show_boxes epsilon_factor : value)
    (orig_h orig_w : nat) (result : Result)
    (shapes : list Shape) (item : nat * Mask) : outcome (list Shape) :=
  let '(i, mask) := item in
  do box <- box_at (boxes result) i;
  do cls <- int (cls box);
  let conf := conf box in
  do label <- subscript (names result !! cls);
  do mask <- resample mask orig_h orig_w;
  do points <- mask_to_polygon mask epsilon_factor;
  if (length points <? 3)%nat then Ok shapes
  else
    let points_list := close_ring (float_points points) in
    let shapes :=
      if truthy show_boxes then shapes ++ [bbox_shape label box conf]
      else shapes in
    Ok (shapes ++ [mask_shape label points_list conf]).

(** Body of [for box in boxes], lines 130-146. *)
Definition box_instance (result : Result)
    (shapes : list Shape) (box : Box) : outcome (list Shape) :=
  let conf := conf box in
  do cls <- int (cls box);
  do label <- subscript (names result !! cls);
  Ok (shapes ++ [bbox_shape label box conf]).

(** Body of [for result in results], lines 79-146. *)
Definition result_shapes (show_boxes epsilon_factor : value)
    (orig_h orig_w : nat)
    (shapes : list Shape) (result : Result) : outcome (list Shape) :=
  match masks result with
  | Some mask_data =>
      for_each (mask_instance show_boxes epsilon_factor orig_h orig_w result)
               (enumerate mask_data) shapes
  | None =>
      match boxes result with
      | Some bs => for_each (box_instance result) bs shapes
      | None => Ok shapes
      end
  end.

(** [self.model]: [AttributeError] when the attribute does not exist. *)
Definition getattr_model (self : Plugin) : outcome Model :=
  match model self with
  | Some m => Ok m
  | None => Err AttributeError
  end.

Definition predict (self : Plugin) (image : Image)
    (call_params : gmap string value) : outcome Prediction :=
  let conf_threshold :=
    get call_params "conf_threshold"
      (get (params self) "conf_threshold" (VNum 0.25)) in
  let iou_threshold :=
    get call_params "iou_threshold"
      (get (params self) "iou_threshold" (VNum 0.70)) in
  let '(orig_h, orig_w) := shape2 image in
  do m <- getattr_model self;
  do results <- call m image (Some conf_threshold) (Some iou_threshold);
  let show_boxes := get (params self) "show_boxes" (VBool false) in
  let epsilon_factor :=
    get call_params "epsilon_factor"
      (get (params self) "epsilon_factor" (VNum 0.001)) in
  do shapes <-
    for_each (result_shapes show_boxes epsilon_factor orig_h orig_w) results [];
  Ok {| shapes := shapes; description := "" |}.

End Plugin.

(** ** What makes an instance raise *)

(** The two statements of [for box in boxes] that can raise: [int(...)]
    on a class id that is not a number, and [result.names[cls]] on a
    class id without name. *)
Inductive box_fault (result : Result) (box : Box) : exn -> Prop :=
| class_not_int (e : exn) :
    int (cls box) = Err e -> box_fault result box e
| class_unnamed (c : Z) :
    int (cls box) = Ok c -> names result !! c = None ->
    box_fault result box KeyError.

(** The statements of [for i, mask in enumerate(mask_data)] that can
    raise, in the order of the source: [boxes[i]], the two above on that
    box, [cv2.resize] and [mask_to_polygon]. *)
Inductive mask_fault (cv2 : Cv2) (epsilon_factor : value) (orig_h orig_w : nat)
    (result : Result) (i : nat) (mask : Mask) : exn -> Prop :=
| no_box (e : exn) :
    box_at (boxes result) i = Err e ->
    mask_fault cv2 epsilon_factor orig_h orig_w result i mask e
| bad_box (box : Box) (e : exn) :
    box_at (boxes result) i = Ok box ->
    box_fault result box e ->
    mask_fault cv2 epsilon_factor orig_h orig_w result i mask e
| resample_raises (box : Box) (c : Z) (name : string) (e : exn) :
    box_at (boxes result) i = Ok box ->
    int (cls box) = Ok c ->
    names result !! c = Some name ->
    resample cv2 mask orig_h orig_w = Err e ->
    mask_fault cv2 epsilon_factor orig_h orig_w result i mask e
| polygon_raises (box : Box) (c : Z) (name : string) (mask' : Mask) (e : exn) :
    box_at (boxes result) i = Ok box ->
    int (cls box) = Ok c ->
    names result !! c = Some name ->
    resample cv2 mask orig_h orig_w = Ok mask' ->
    mask_to_polygon cv2 mask' epsilon_factor = Err e ->
    mask_fault cv2 epsilon_factor orig_h orig_w result i mask e.

(** ** [parse_prompts] *)

(** A [str] is modelled by [string]: its characters are the code points
    below 256.  [str.isspace] on that range. *)
Definition is_space (c : ascii) : bool :=
  let n := N_of_ascii c in
  ((9 <=? n) && (n <=? 13) || (28 <=? n) && (n <=? 32)
   || (n =? 133) || (n =? 160))%N.

Fixpoint lstrip (s : string) : string :=
  match s with
  | EmptyString => EmptyString
  | String c s' => if is_space c then lstrip s' else s
  end.

Fixpoint rstrip (s : string) : string :=
  match s with
  | EmptyString => EmptyString
  | String c s' =>
      match rstrip s' with
      | EmptyString => if is_space c then EmptyString else String c EmptyString
      | r => String c r
      end
  end.

(** [s.strip()] *)
Definition strip (s : string) : string := rstrip (lstrip s).

(** [re.split("[...]", text)] for a character class: a cut at every
    character of the class, empty pieces included. *)
Fixpoint re_split (class : list ascii) (text : string) : list string :=
  match text with
  | EmptyString => [EmptyString]
  | String c text' =>
      if existsb (Ascii.eqb c) class then EmptyString :: re_split class text'
      else
        match re_split class text' with
        | piece :: pieces => String c piece :: pieces
        | [] => [String c EmptyString]
        end
  end.

(** The characters of the class [f"[{''.join(re.escape(s) for s in
    separators)}]"]: [re.escape] makes every character of every separator
    literal, so the class holds exactly those characters. *)
Definition class_chars (separators : list string) : list ascii :=
  concat (map list_ascii_of_string separators).

(** [dict.fromkeys(prompts)] as the ordered list of its keys: a key
    already present keeps its position. *)
Definition dict_fromkeys (prompts : list string) : list string :=
  fold_left
    (fun keys k => if existsb (String.eqb k) keys then keys else keys ++ [k])
    prompts [].

Definition parse_prompts (text : string) (separators : option (list string))
    (deduplicate : bool) : outcome (list string) :=
  let separators :=
    match separators with
    | None => [","; "."]
    | Some l => l
    end in
  if String.eqb (strip text) "" then Ok []
  else
    do pieces <-
      (match class_chars separators with
       | [] => Err re_error          (* "[]" does not compile *)
       | class => Ok (re_split class text)
       end);
    let prompts :=
      map strip (List.filter (fun p => negb (String.eqb (strip p) "")) pieces) in
    Ok (if deduplicate then dict_fromkeys prompts else prompts).

(** The parser as the specification words it, to be compared with
    [parse_prompts]: split, trim every piece, drop the empty ones, keep
    the first occurrence of each. *)
Fixpoint first_occurrences (l : list string) : list string :=
  match l with
  | [] => []
  | x :: l' =>
      x :: List.filter (fun y => negb (String.eqb y x)) (first_occurrences l')
  end.

Definition spec_parse (class : list ascii) (text : string)
    (deduplicate : bool) : list string :=
  let trimmed := map strip (re_split class text) in
  let kept := List.filter (fun p => negb (String.eqb p "")) trimmed in
  if deduplicate then first_occurrences kept else kept.

(** The text made of the pieces with one separator between neighbours. *)
Fixpoint interleave (pieces : list string) (seps : list ascii) : string :=
  match pieces, seps with
  | p :: ps, c :: cs => String.append p (String c (interleave ps cs))
  | p :: _, [] => p
  | [], _ => EmptyString
  end.

(** ** Polygon simplification *)

Definition sq (z : Z) : Z := z * z.

Definition same_point (a b : Z * Z) : bool :=
  (fst a =? fst b) && (snd a =? snd b).

(** Squared distance of [p] from the line through [a] and [b], as a
    fraction [dist2_num / dist2_den]; from the point [a] when [a = b]. *)
Definition dist2_num (a b p : Z * Z) : Z :=
  if same_point a b then sq (fst p - fst a) + sq (snd p - snd a)
  else sq ((fst p - fst a) * (snd b - snd a) - (snd p - snd a) * (fst b - fst a)).

Definition dist2_den (a b : Z * Z) : Z :=
  if same_point a b then 1 else sq (fst b - fst a) + sq (snd b - snd a).

(** Is [p] farther than [eps] from the line through [a] and [b]? *)
Definition beyond (eps : Q) (a b p : Z * Z) : bool :=
  Qltb eps 0
  || Qltb (eps * eps * inject_Z (dist2_den a b)) (inject_Z (dist2_num a b p)).

(** Index of the first greatest element. *)
Fixpoint argmax_from (best_i : nat) (best : Z) (i : nat) (ds : list Z) : nat :=
  match ds with
  | [] => best_i
  | d :: ds' =>
      if best <? d then argmax_from i d (S i) ds'
      else argmax_from best_i best (S i) ds'
  end.

Definition argmax (ds : list Z) : nat :=
  match ds with
  | [] => 0%nat
  | d :: ds' => argmax_from 0 d 1 ds'
  end.

(** The Douglas-Peucker simplification of an open polyline, the
    algorithm the specification names (section 4.3 step 5); the stand-in
    for OpenCV below uses it.  The end points are kept; when the farthest
    interior point is farther than [eps] from the line through them the
    polyline is split there and both halves are simplified, otherwise all
    interior points are removed.  Each half is shorter than the polyline,
    so [length pts] units of fuel are enough ([simplify_fuel]). *)
Fixpoint simplify (fuel : nat) (eps : Q) (pts : list (Z * Z)) : list (Z * Z) :=
  match fuel with
  | O => pts
  | S fuel' =>
      match pts with
      | a :: ((_ :: _ :: _) as rest) =>
          let b := List.last rest a in
          let interior := removelast rest in
          let k := S (argmax (map (dist2_num a b) interior)) in
          match pts !! k with
          | Some p =>
              if beyond eps a b p then
                simplify fuel' eps (take (S k) pts)
                ++ tail (simplify fuel' eps (drop k pts))
              else [a; b]
          | None => [a; b]
          end
      | _ => pts
      end
  end.

(** The simplification of a closed ring, opened at its first vertex. *)
Definition douglas_peucker (contour : Contour) (epsilon : Q) : Contour :=
  match contour with
  | [] => []
  | p0 :: _ =>
      removelast (simplify (S (length contour)) epsilon (contour ++ [p0]))
  end.

(** ** An executable stand-in for OpenCV

    Used to run the plugin on concrete inputs.  It agrees with OpenCV on
    masks whose foreground is one filled axis-parallel rectangle; the
    theorems below hold for every [Cv2], not only for this one. *)

(** Indices of the elements that satisfy [f]. *)
Definition indices {A : Type} (f : A -> bool) (l : list A) : list Z :=
  map (fun ix => Z.of_nat (fst ix)) (List.filter (fun ix => f (snd ix)) (enumerate l)).

Definition Zmin_list (z : Z) (l : list Z) : Z := fold_left Z.min l z.
Definition Zmax_list (z : Z) (l : list Z) : Z := fold_left Z.max l z.

(** The corners of the bounding box of the foreground, in the order
    OpenCV traces them (down, right, up), or no contour at all. *)
Definition standin_findContours (img : Mask8) : list Contour :=
  let ys := indices (existsb foreground) img in
  let xs := concat (map (indices foreground) img) in
  match xs, ys with
  | x :: _, y :: _ =>
      let x0 := Zmin_list x xs in
      let x1 := Zmax_list x xs in
      let y0 := Zmin_list y ys in
      let y1 := Zmax_list y ys in
      if (x0 =? x1) && (y0 =? y1) then [[(x0, y0)]]
      else if (x0 =? x1) || (y0 =? y1) then [[(x0, y0); (x1, y1)]]
      else [[(x0, y0); (x0, y1); (x1, y1); (x1, y0)]]
  | _, _ => []
  end.

(** Edges of a closed ring: every vertex with its successor. *)
Definition ring_edges (c : Contour) : list ((Z * Z) * (Z * Z)) :=
  match c with
  | [] => []
  | p0 :: ps => combine c (ps ++ [p0])
  end.

(** Half of the absolute shoelace sum. *)
Definition standin_contourArea (c : Contour) : Q :=
  let twice :=
    fold_left
      (fun s e => s + (fst (fst e) * snd (snd e) - fst (snd e) * snd (fst e)))
      (ring_edges c) 0 in
  (Z.abs twice # 2).

(** Perimeter, every edge length rounded down to an integer. *)
Definition standin_arcLength (c : Contour) : Q :=
  inject_Z
    (fold_left
       (fun s e =>
          s + Z.sqrt (sq (fst (snd e) - fst (fst e)) + sq (snd (snd e) - snd (fst e))))
       (ring_edges c) 0).

(** Nearest-neighbour resampling; an empty source or target is refused. *)
Definition standin_resize (mask : Mask) (w h : nat) : outcome Mask :=
  let '(mh, mw) := shape2 mask in
  if (mh =? 0)%nat || (mw =? 0)%nat || (w =? 0)%nat || (h =? 0)%nat
  then Err cv2_error
  else
    Ok (map
          (fun r =>
             let row := nth (r * mh / h) mask [] in
             map (fun c => nth (c * mw / w) row 0%Q) (seq 0 w))
          (seq 0 h)).

(** The simplification, behind the test OpenCV makes first: a tolerance
    that is negative or not below 1e30 is refused. *)
Definition standin_approxPolyDP (contour : Contour) (epsilon : Q)
    : outcome Contour :=
  if Qltb epsilon 0 || negb (Qltb epsilon (inject_Z (10 ^ 30)))
  then Err cv2_error
  else Ok (douglas_peucker contour epsilon).

Definition standin_cv2 : Cv2 := {|
  findContours := standin_findContours;
  contourArea := standin_contourArea;
  arcLength := standin_arcLength;
  approxPolyDP := standin_approxPolyDP;
  resize := standin_resize
|}.

(** A network that returns the same results for every image. *)
Definition constant_model (results : list Result) : Model := {|
  to := fun _ => Ok tt;
  call := fun _ _ _ => Ok results
|}.

(** ** Sample inputs *)

Definition sample_image : Image := repeat (repeat (0, 0, 0) 4%nat) 4%nat.

(** A 4x4 mask with a filled 2x2 square. *)
Definition sample_mask : Mask :=
  [ [0; 0; 0; 0]; [0; 1; 1; 0]; [0; 1; 1; 0]; [0; 0; 0; 0] ]%Q.

Definition empty_mask : Mask :=
  [ [0; 0; 0; 0]; [0; 0; 0; 0]; [0; 0; 0; 0]; [0; 0; 0; 0] ]%Q.

Definition sample_box : Box :=
  {| xyxy := (Fin 1, Fin 1, Fin 3, Fin 3); conf := Fin (9 # 10); cls := Fin 0 |}.

Definition sample_names : gmap Z string := {[ 0 := "person" ]}.

Definition sample_result : Result :=
  {| boxes := Some [sample_box]; masks := Some [sample_mask];
     names := sample_names |}.

Definition sample_config : Config :=
  {| cfg_model_id := Some "yolo11n_seg";
     cfg_display_name := Some "YOLO11n-Seg";
     cfg_params := None;
     cfg_widgets := None;
     cfg_batch_processing_mode := None |}.

(** The instance [__init__] builds from [sample_config]. *)
Definition sample_plugin : Plugin :=
  {| config := sample_config;
     model_id := "yolo11n_seg";
     display_name := "YOLO11n-Seg";
     params := ∅;
     model := None |}.

Definition sample_loaded (results : list Result) : Plugin :=
  set_model sample_plugin (Some (constant_model results)).

(** The same instance configured with [show_boxes: true]. *)
Definition sample_configured (results : list Result) : Plugin :=
  {| config := sample_config;
     model_id := "yolo11n_seg";
     display_name := "YOLO11n-Seg";
     params := {[ "show_boxes" := VBool true ]};
     model := Some (constant_model results) |}.

(** A box whose class id is not a number, and one whose score is not. *)
Definition nan_cls_box : Box :=
  {| xyxy := (Fin 0, Fin 0, Fin 2, Fin 2); conf := Fin (1 # 2); cls := NaN |}.

Definition nan_conf_box : Box :=
  {| xyxy := (Fin 0, Fin 0, Fin 2, Fin 2); conf := NaN; cls := Fin 0 |}.

(** Two mask instances, the first with the malformed box. *)
Definition two_instance_result : Result :=
  {| boxes := Some [nan_cls_box; sample_box];
     masks := Some [sample_mask; sample_mask];
     names := sample_names |}.

(** Two boxes without masks, the second with the malformed box. *)
Definition bad_box_result : Result :=
  {| boxes := Some [sample_box; nan_cls_box]; masks := None;
     names := sample_names |}.

(** One instance whose mask has no foreground. *)
Definition empty_mask_result : Result :=
  {| boxes := Some [sample_box]; masks := Some [empty_mask];
     names := sample_names |}.

(** The polygon [predict] emits for [sample_mask]. *)
Definition sample_polygon : Shape :=
  mask_shape "person"
    [(Fin 1, Fin 1); (Fin 1, Fin 2); (Fin 2, Fin 2); (Fin 2, Fin 1); (Fin 1, Fin 1)]
    (Fin (9 # 10)).

(** ** [BaseModel.get_metadata] *)

(** The dictionary [get_metadata] returns, one field per key. *)
Record Metadata : Type := {
  meta_display_name : string;
  meta_widgets : list value;
  meta_params : gmap string value;
  meta_batch_processing_mode : value
}.

Definition get_metadata (self : Plugin) : Metadata :=
  {| meta_display_name := display_name self;
     meta_widgets :=
       match cfg_widgets (config self) with Some w => w | None => [] end;
     meta_params := params self;
     meta_batch_processing_mode :=
       match cfg_batch_processing_mode (config self) with
       | Some mode => mode
       | None => VStr "default"
       end |}.

(** ** Shapes as the labelling client expects them *)

(** A rectangle has its four corners; a polygon is a closed ring of at
    least three points. *)
Definition shape_ok (s : Shape) : bool :=
  if String.eqb (shape_type s) "rectangle" then (length (points s) =? 4)%nat
  else if String.eqb (shape_type s) "polygon" then
    (3 <=? length (points s))%nat
    && match points s with
       | [] => false
       | p0 :: _ => point_eqb p0 (List.last (points s) p0)
       end
  else false.

(** ** More sample inputs *)

(** A network whose warm-up run (no thresholds given) raises, and that
    detects nothing otherwise. *)
Definition cold_model : Model := {|
  to := fun _ => Ok tt;
  call := fun _ conf _ =>
    match conf with
    | None => Err (Exception "RuntimeError")
    | Some _ => Ok []
    end
|}.

(** A detection result without masks. *)
Definition box_only_result : Result :=
  {| boxes := Some [sample_box; nan_conf_box]; masks := None;
     names := sample_names |}.

(** Two contours of equal area 1 and one of area 4. *)
Definition sample_contours : list Contour :=
  [ [(0, 0); (0, 1); (1, 1); (1, 0)];
    [(5, 5); (5, 7); (7, 7); (7, 5)];
    [(9, 9); (9, 11); (11, 11); (11, 9)] ].

(** * Properties *)

(** ** The plugin life cycle *)

Lemma init_no_model (config : Config) (self : Plugin) :
  init config = Ok self -> model self = None.
Proof.
  unfold init, subscript, bind.
  destruct (cfg_model_id config); [|discriminate].
  destruct (cfg_display_name config); [|discriminate].
  intros [= <-]. reflexivity.
Qed.

Lemma predict_no_model (cv2 : Cv2) (self : Plugin) (image : Image)
    (call_params : gmap string value) :
  model self = None -> predict cv2 self image call_params = Err AttributeError.
Proof.
  intros Hm. unfold predict, getattr_model. rewrite Hm.
  destruct (shape2 image). reflexivity.
Qed.

Lemma unload_no_model (self : Plugin) : model (unload self) = None.
Proof.
  unfold unload. destruct (model self) eqn:Hm; [reflexivity | exact Hm].
Qed.

Lemma load_ok_model (import_YOLO : outcome (value -> outcome Model))
    (self self' : Plugin) :
  load import_YOLO self = (self', Ok tt) ->
  params self' = params self /\ exists m, model self' = Some m.
Proof.
  unfold load. destruct import_YOLO as [YOLO|e]; [|intros [= _ ?]; discriminate].
  destruct (YOLO _) as [m|e]; [|intros [= _ ?]; discriminate].
  intros [= <- _]. split; [reflexivity | exists m; reflexivity].
Qed.

(** C1, as the specification states it, fails: a plugin that was never
    loaded rejects [predict] with [AttributeError], raised by the access to
    the missing attribute [self.model], and not with [NotLoadedError]. *)
Lemma predict_unloaded_is_not_NotLoadedError :
  init sample_config = Ok sample_plugin
  /\ predict standin_cv2 sample_plugin sample_image ∅ = Err AttributeError
  /\ predict standin_cv2 sample_plugin sample_image ∅ <> Err NotLoadedError.
Proof.
  split; [reflexivity|]. split; [reflexivity|].
  rewrite predict_no_model by reflexivity. discriminate.
Qed.

(** C1 (amended): an instance without a [model] attribute, as [__init__]
    leaves it, rejects [predict] with [AttributeError]; after a [load] that
    returns normally [predict] runs the wrapped network on the image and
    assembles its results, failing only if the network or the assembly
    raise; after [unload] it rejects with [AttributeError] again. *)
Theorem predict_needs_model_attribute
    (cv2 : Cv2) (import_YOLO : outcome (value -> outcome Model))
    (config : Config) (self0 self1 : Plugin) (image : Image)
    (call_params : gmap string value) :
  init config = Ok self0 ->
  load import_YOLO self0 = (self1, Ok tt) ->
  predict cv2 self0 image call_params = Err AttributeError
  /\ (exists m, model self1 = Some m
      /\ predict cv2 self1 image call_params =
         (do results <-
            call m image
              (Some (get call_params "conf_threshold"
                       (get (params self0) "conf_threshold" (VNum 0.25))))
              (Some (get call_params "iou_threshold"
                       (get (params self0) "iou_threshold" (VNum 0.70))));
          do shapes <-
            for_each
              (result_shapes cv2
                 (get (params self0) "show_boxes" (VBool false))
                 (get call_params "epsilon_factor"
                    (get (params self0) "epsilon_factor" (VNum 0.001)))
                 (fst (shape2 image)) (snd (shape2 image)))
              results [];
          Ok {| shapes := shapes; description := "" |}))
  /\ predict cv2 (unload self1) image call_params = Err AttributeError.
Proof.
  intros Hinit Hload.
  split; [apply predict_no_model, (init_no_model _ _ Hinit)|].
  split; [|apply predict_no_model, unload_no_model].
  destruct (load_ok_model _ _ _ Hload) as [Hp [m Hm]].
  exists m. split; [exact Hm|].
  unfold predict, getattr_model. rewrite Hm, Hp.
  destruct (shape2 image). reflexivity.
Qed.

Lemma predict_needs_model_attribute_witness :
  let loaded := sample_loaded [sample_result] in
  predict standin_cv2 sample_plugin sample_image ∅ = Err AttributeError
  /\ (exists m, model loaded = Some m
      /\ predict standin_cv2 loaded sample_image ∅ =
         (do results <-
            call m sample_image
              (Some (get (∅ : gmap string value) "conf_threshold"
                       (get (params sample_plugin) "conf_threshold" (VNum 0.25))))
              (Some (get (∅ : gmap string value) "iou_threshold"
                       (get (params sample_plugin) "iou_threshold" (VNum 0.70))));
          do shapes <-
            for_each
              (result_shapes standin_cv2
                 (get (params sample_plugin) "show_boxes" (VBool false))
                 (get (∅ : gmap string value) "epsilon_factor"
                    (get (params sample_plugin) "epsilon_factor" (VNum 0.001)))
                 (fst (shape2 sample_image)) (snd (shape2 sample_image)))
              results [];
          Ok {| shapes := shapes; description := "" |}))
  /\ predict standin_cv2 (unload loaded) sample_image ∅ = Err AttributeError.
Proof.
  apply (predict_needs_model_attribute standin_cv2
           (Ok (fun _ => Ok (constant_model [sample_result])))
           sample_config sample_plugin (sample_loaded [sample_result])
           sample_image ∅).
  - reflexivity.
  - reflexivity.
Defined.

(** ** Parameter resolution *)

Lemma get_insert_ne {V : Type} (d : gmap string V) (k k' : string) (v dflt : V) :
  k <> k' -> get (<[k := v]> d) k' dflt = get d k' dflt.
Proof. intros Hne. unfold get. rewrite lookup_insert_ne by exact Hne. reflexivity. Qed.

(** The three keys [predict] resolves in three tiers. *)
Lemma get_three_tiers (call_params self_params : gmap string value)
    (key : string) (dflt : value) :
  get call_params key (get self_params key dflt) =
  match call_params !! key with
  | Some v => v
  | None => match self_params !! key with Some v => v | None => dflt end
  end.
Proof. reflexivity. Qed.

Lemma predict_insert_show_boxes (cv2 : Cv2) (self : Plugin) (image : Image)
    (call_params : gmap string value) (v : value) :
  predict cv2 self image (<["show_boxes" := v]> call_params) =
  predict cv2 self image call_params.
Proof.
  unfold predict. rewrite !get_insert_ne by discriminate. reflexivity.
Qed.

(** C2: evaluation of [predict] where the code departs from the claim.
    [show_boxes] is read from the plugin's configured parameters only
    (line 73): a call-time [show_boxes] never changes the result, so with
    [show_boxes = True] passed to the call the mask instance yields the
    polygon alone, while the same value in the configured parameters adds
    the rectangle. *)
Theorem call_time_show_boxes_is_ignored :
  (forall cv2 self image call_params v,
      predict cv2 self image (<["show_boxes" := v]> call_params) =
      predict cv2 self image call_params)
  /\ predict standin_cv2 (sample_loaded [sample_result]) sample_image
       {[ "show_boxes" := VBool true ]}
     = Ok {| shapes := [sample_polygon]; description := "" |}
  /\ predict standin_cv2 (sample_configured [sample_result]) sample_image ∅
     = Ok {| shapes := [bbox_shape "person" sample_box (Fin (9 # 10));
                        sample_polygon];
             description := "" |}.
Proof.
  split; [exact predict_insert_show_boxes|].
  split; vm_compute; reflexivity.
Qed.

(** C10: when [predict] returns, the [description] of its result is the
    empty string. *)
Theorem predict_description_empty (cv2 : Cv2) (self : Plugin) (image : Image)
    (call_params : gmap string value) (r : Prediction) :
  predict cv2 self image call_params = Ok r -> description r = "".
Proof.
  unfold predict. destruct (shape2 image) as [orig_h orig_w].
  destruct (getattr_model self) as [m|e]; [|discriminate]. cbn [bind].
  destruct (call m image _ _) as [results|e]; [|discriminate]. cbn [bind].
  destruct (for_each _ results []) as [shapes|e]; [|discriminate]. cbn [bind].
  intros [= <-]. reflexivity.
Qed.

Lemma predict_description_empty_witness :
  predict standin_cv2 (sample_loaded [sample_result]) sample_image ∅
  = Ok {| shapes := [sample_polygon]; description := "" |}
  /\ description {| shapes := [sample_polygon]; description := "" |} = "".
Proof.
  assert (H : predict standin_cv2 (sample_loaded [sample_result]) sample_image ∅
              = Ok {| shapes := [sample_polygon]; description := "" |})
    by (vm_compute; reflexivity).
  split; [exact H|].
  exact (predict_description_empty standin_cv2
           (sample_loaded [sample_result]) sample_image ∅ _ H).
Defined.

(** ** The shape assembler *)

(** What one mask instance does once its box, class name, resampled mask
    and polygon are known. *)
Lemma mask_instance_eq (cv2 : Cv2) (show_boxes epsilon_factor : value)
    (orig_h orig_w : nat) (result : Result) (shapes : list Shape)
    (i : nat) (mask mask' : Mask) (box : Box) (c : Z) (name : string)
    (pts : list Point) :
  box_at (boxes result) i = Ok box ->
  int (cls box) = Ok c ->
  names result !! c = Some name ->
  resample cv2 mask orig_h orig_w = Ok mask' ->
  mask_to_polygon cv2 mask' epsilon_factor = Ok pts ->
  mask_instance cv2 show_boxes epsilon_factor orig_h orig_w result shapes (i, mask)
  = if (length pts <? 3)%nat then Ok shapes
    else Ok ((if truthy show_boxes
              then shapes ++ [bbox_shape name box (conf box)]
              else shapes)
             ++ [mask_shape name (close_ring (float_points pts)) (conf box)]).
Proof.
  intros Hbox Hcls Hname Hmask Hpts. unfold mask_instance.
  rewrite Hbox. cbn [bind]. rewrite Hcls. cbn [bind].
  rewrite Hname. cbn [bind subscript]. rewrite Hmask. cbn [bind].
  rewrite Hpts. cbn [bind]. reflexivity.
Qed.

Lemma mask_to_polygon_no_contour (cv2 : Cv2) (mask : Mask) (epsilon_factor : value) :
  findContours cv2 (to_mask_uint8 mask) = [] ->
  mask_to_polygon cv2 mask epsilon_factor = Ok [].
Proof. intros H. unfold mask_to_polygon. rewrite H. reflexivity. Qed.

(** The binarised mask has no foreground pixel exactly when every mask
    value binarises to background. *)
Lemma to_mask_uint8_background (mask : Mask) :
  Forall (Forall (fun v => foreground (astype_uint8 (v * 255)%Q) = false)) mask ->
  Forall (Forall (fun px => foreground px = false)) (to_mask_uint8 mask).
Proof.
  unfold to_mask_uint8. intros H.
  apply Forall_map. eapply Forall_impl; [exact H|].
  intros row Hrow. apply Forall_map. exact Hrow.
Qed.

(** C4: a mask instance whose extracted polygon has fewer than 3 points
    appends nothing to the shapes, whatever [show_boxes] is: neither a
    polygon nor a rectangle.  In particular, when OpenCV finds no contour
    (which is what it does for an image without a foreground pixel) the
    extracted polygon is empty and the instance appends nothing. *)
Theorem degenerate_mask_emits_no_shape
    (cv2 : Cv2) (show_boxes epsilon_factor : value) (orig_h orig_w : nat)
    (result : Result) (shapes : list Shape) (i : nat) (mask mask' : Mask)
    (box : Box) (c : Z) (name : string) :
  box_at (boxes result) i = Ok box ->
  int (cls box) = Ok c ->
  names result !! c = Some name ->
  resample cv2 mask orig_h orig_w = Ok mask' ->
  (forall pts,
      mask_to_polygon cv2 mask' epsilon_factor = Ok pts ->
      (length pts < 3)%nat ->
      mask_instance cv2 show_boxes epsilon_factor orig_h orig_w result
        shapes (i, mask) = Ok shapes)
  /\ ((forall img, Forall (Forall (fun px => foreground px = false)) img ->
                   findContours cv2 img = []) ->
      Forall (Forall (fun v => foreground (astype_uint8 (v * 255)%Q) = false)) mask' ->
      mask_to_polygon cv2 mask' epsilon_factor = Ok []
      /\ mask_instance cv2 show_boxes epsilon_factor orig_h orig_w result
           shapes (i, mask) = Ok shapes).
Proof.
  intros Hbox Hcls Hname Hmask. split.
  - intros pts Hpts Hlen.
    rewrite (mask_instance_eq _ _ _ _ _ _ _ _ _ _ _ _ _ _ Hbox Hcls Hname Hmask Hpts).
    apply Nat.ltb_lt in Hlen. rewrite Hlen. reflexivity.
  - intros Hcv Hbg.
    assert (Hpts : mask_to_polygon cv2 mask' epsilon_factor = Ok []).
    { apply mask_to_polygon_no_contour, Hcv, to_mask_uint8_background, Hbg. }
    split; [exact Hpts|].
    rewrite (mask_instance_eq _ _ _ _ _ _ _ _ _ _ _ _ _ _ Hbox Hcls Hname Hmask Hpts).
    reflexivity.
Qed.

(** C5: a mask instance whose polygon has at least 3 points appends, with
    [show_boxes] enabled, exactly the rectangle of its box followed by the
    closed polygon, and with [show_boxes] disabled exactly the polygon. *)
Theorem mask_instance_rectangle_then_polygon
    (cv2 : Cv2) (show_boxes epsilon_factor : value) (orig_h orig_w : nat)
    (result : Result) (shapes : list Shape) (i : nat) (mask mask' : Mask)
    (box : Box) (c : Z) (name : string) (pts : list Point) :
  box_at (boxes result) i = Ok box ->
  int (cls box) = Ok c ->
  names result !! c = Some name ->
  resample cv2 mask orig_h orig_w = Ok mask' ->
  mask_to_polygon cv2 mask' epsilon_factor = Ok pts ->
  (3 <= length pts)%nat ->
  mask_instance cv2 show_boxes epsilon_factor orig_h orig_w result shapes (i, mask)
  = Ok (shapes ++
        if truthy show_boxes
        then [bbox_shape name box (conf box);
              mask_shape name (close_ring (float_points pts)) (conf box)]
        else [mask_shape name (close_ring (float_points pts)) (conf box)])
  /\ shape_type (bbox_shape name box (conf box)) = "rectangle"
  /\ shape_type (mask_shape name (close_ring (float_points pts)) (conf box))
     = "polygon".
Proof.
  intros Hbox Hcls Hname Hmask Hpts Hlen.
  split; [|split; reflexivity].
  rewrite (mask_instance_eq _ _ _ _ _ _ _ _ _ _ _ _ _ _ Hbox Hcls Hname Hmask Hpts).
  apply Nat.ltb_ge in Hlen. rewrite Hlen.
  destruct (truthy show_boxes); [rewrite <- app_assoc|]; reflexivity.
Qed.

Lemma indices_none {A : Type} (f : A -> bool) (l : list A) :
  Forall (fun x => f x = false) l -> indices f l = [].
Proof.
  intros H. unfold indices, enumerate.
  generalize (seq 0 (length l)). induction H as [|x l Hx _ IH]; intros ns.
  - destruct ns; reflexivity.
  - destruct ns as [|n ns]; [reflexivity|].
    cbn [combine List.filter snd]. rewrite Hx. apply IH.
Qed.

(** The stand-in honours OpenCV's contract on images without foreground. *)
Lemma standin_findContours_background (img : Mask8) :
  Forall (Forall (fun px => foreground px = false)) img ->
  standin_findContours img = [].
Proof.
  intros H. unfold standin_findContours.
  assert (Hxs : concat (map (indices foreground) img) = []).
  { induction H as [|row img Hrow _ IH]; [reflexivity|].
    cbn [map concat]. rewrite (indices_none _ _ Hrow), IH. reflexivity. }
  rewrite Hxs. reflexivity.
Qed.

Lemma degenerate_mask_emits_no_shape_witness :
  mask_to_polygon standin_cv2 empty_mask (VNum 0.001) = Ok []
  /\ mask_instance standin_cv2 (VBool true) (VNum 0.001) 4 4
       empty_mask_result [] (0%nat, empty_mask) = Ok []
  /\ mask_instance standin_cv2 (VBool false) (VNum 0.001) 4 4
       empty_mask_result [] (0%nat, empty_mask) = Ok [].
Proof.
  assert (Hbg : Forall (Forall (fun v => foreground (astype_uint8 (v * 255)%Q) = false))
                  empty_mask)
    by (repeat constructor).
  split; [|split].
  - apply (degenerate_mask_emits_no_shape standin_cv2 (VBool true) (VNum 0.001)
             4 4 empty_mask_result [] 0 empty_mask empty_mask sample_box 0 "person");
      [reflexivity | reflexivity | reflexivity | reflexivity
      | exact standin_findContours_background | exact Hbg].
  - apply (degenerate_mask_emits_no_shape standin_cv2 (VBool true) (VNum 0.001)
             4 4 empty_mask_result [] 0 empty_mask empty_mask sample_box 0 "person");
      [reflexivity | reflexivity | reflexivity | reflexivity
      | exact standin_findContours_background | exact Hbg].
  - apply (degenerate_mask_emits_no_shape standin_cv2 (VBool false) (VNum 0.001)
             4 4 empty_mask_result [] 0 empty_mask empty_mask sample_box 0 "person"
             eq_refl eq_refl eq_refl eq_refl) with (pts := []);
      [reflexivity | simpl; lia].
Defined.

Lemma mask_instance_rectangle_then_polygon_witness :
  mask_instance standin_cv2 (VBool true) (VNum 0.001) 4 4 sample_result []
    (0%nat, sample_mask)
  = Ok [bbox_shape "person" sample_box (Fin (9 # 10)); sample_polygon]
  /\ mask_instance standin_cv2 (VBool false) (VNum 0.001) 4 4 sample_result []
       (0%nat, sample_mask)
     = Ok [sample_polygon].
Proof.
  split.
  - apply (mask_instance_rectangle_then_polygon standin_cv2 (VBool true)
             (VNum 0.001) 4 4 sample_result [] 0 sample_mask sample_mask
             sample_box 0 "person" [(1, 1); (1, 2); (2, 2); (2, 1)]%Q);
      [reflexivity | reflexivity | reflexivity | reflexivity
      | vm_compute; reflexivity | simpl; lia].
  - apply (mask_instance_rectangle_then_polygon standin_cv2 (VBool false)
             (VNum 0.001) 4 4 sample_result [] 0 sample_mask sample_mask
             sample_box 0 "person" [(1, 1); (1, 2); (2, 2); (2, 1)]%Q);
      [reflexivity | reflexivity | reflexivity | reflexivity
      | vm_compute; reflexivity | simpl; lia].
Defined.

(** ** Exceptions inside the loops *)

Lemma for_each_app {A S : Type} (body : S -> A -> outcome S)
    (l1 l2 : list A) (acc : S) :
  for_each body (l1 ++ l2) acc =
  (do acc' <- for_each body l1 acc; for_each body l2 acc').
Proof.
  revert acc. induction l1 as [|x l1 IH]; intros acc; [reflexivity|].
  cbn [app for_each]. destruct (body acc x) as [acc'|e]; cbn [bind]; [apply IH | reflexivity].
Qed.

(** An exception in one iteration is the outcome of the whole loop. *)
Lemma for_each_raises {A S : Type} (body : S -> A -> outcome S)
    (pre post : list A) (x : A) (acc acc' : S) (e : exn) :
  for_each body pre acc = Ok acc' ->
  body acc' x = Err e ->
  for_each body (pre ++ x :: post) acc = Err e.
Proof.
  intros Hpre Hx. rewrite for_each_app, Hpre. cbn [bind for_each].
  rewrite Hx. reflexivity.
Qed.

Lemma box_instance_raises_iff (result : Result) (shapes : list Shape)
    (box : Box) (e : exn) :
  box_instance result shapes box = Err e <-> box_fault result box e.
Proof.
  unfold box_instance. split.
  - destruct (int (cls box)) as [c|e0] eqn:Hc; cbn [bind].
    + destruct (names result !! c) as [name|] eqn:Hn; cbn [bind subscript];
        [discriminate|].
      intros [= <-]. exact (class_unnamed result box c Hc Hn).
    + intros [= <-]. exact (class_not_int result box e0 Hc).
  - intros [e' Hc|c Hc Hn]; rewrite Hc; cbn [bind]; [reflexivity|].
    rewrite Hn. reflexivity.
Qed.

Lemma mask_instance_raises_iff (cv2 : Cv2) (show_boxes epsilon_factor : value)
    (orig_h orig_w : nat) (result : Result) (shapes : list Shape)
    (i : nat) (mask : Mask) (e : exn) :
  mask_instance cv2 show_boxes epsilon_factor orig_h orig_w result shapes (i, mask)
  = Err e
  <-> mask_fault cv2 epsilon_factor orig_h orig_w result i mask e.
Proof.
  unfold mask_instance. split.
  - destruct (box_at (boxes result) i) as [box|e0] eqn:Hb; cbn [bind];
      [|intros [= <-]; exact (no_box _ _ _ _ _ _ _ e0 Hb)].
    destruct (int (cls box)) as [c|e0] eqn:Hc; cbn [bind];
      [|intros [= <-];
        exact (bad_box _ _ _ _ _ _ _ box e0 Hb (class_not_int _ _ e0 Hc))].
    destruct (names result !! c) as [name|] eqn:Hn; cbn [bind subscript];
      [|intros [= <-];
        exact (bad_box _ _ _ _ _ _ _ box _ Hb (class_unnamed _ _ c Hc Hn))].
    destruct (resample cv2 mask orig_h orig_w) as [mask'|e0] eqn:Hr; cbn [bind];
      [|intros [= <-]; exact (resample_raises _ _ _ _ _ _ _ box c name e0 Hb Hc Hn Hr)].
    destruct (mask_to_polygon cv2 mask' epsilon_factor) as [pts|e0] eqn:Hp;
      cbn [bind];
      [|intros [= <-];
        exact (polygon_raises _ _ _ _ _ _ _ box c name mask' e0 Hb Hc Hn Hr Hp)].
    destruct (length pts <? 3)%nat; discriminate.
  - intros [e' Hb|box e' Hb Hbox|box c name e' Hb Hc Hn Hr
            |box c name mask' e' Hb Hc Hn Hr Hp]; rewrite Hb; cbn [bind].
    + reflexivity.
    + destruct Hbox as [e'' Hc|c Hc Hn]; rewrite Hc; cbn [bind]; [reflexivity|].
      rewrite Hn. reflexivity.
    + rewrite Hc. cbn [bind]. rewrite Hn. cbn [bind subscript]. rewrite Hr.
      reflexivity.
    + rewrite Hc. cbn [bind]. rewrite Hn. cbn [bind subscript]. rewrite Hr.
      cbn [bind]. rewrite Hp. reflexivity.
Qed.

(** C6, as the specification states it, fails: with two mask instances of
    which the first has a class id that is not a number, [predict] raises
    [ValueError] and returns no shape, although the second instance alone
    yields a polygon; with two boxes without masks of which the second has
    such a class id, [predict] raises as well, although the first box
    alone yields its rectangle. *)
Lemma malformed_instance_is_not_skipped :
  predict standin_cv2 (sample_loaded [two_instance_result]) sample_image ∅
  = Err ValueError
  /\ is_ok (predict standin_cv2 (sample_loaded [two_instance_result])
              sample_image ∅) = false
  /\ predict standin_cv2 (sample_loaded [sample_result]) sample_image ∅
     = Ok {| shapes := [sample_polygon]; description := "" |}
  /\ predict standin_cv2 (sample_loaded [bad_box_result]) sample_image ∅
     = Err ValueError
  /\ predict standin_cv2
       (sample_loaded [ {| boxes := Some [sample_box]; masks := None;
                           names := sample_names |} ])
       sample_image ∅
     = Ok {| shapes := [bbox_shape "person" sample_box (Fin (9 # 10))];
             description := "" |}.
Proof. repeat split; vm_compute; reflexivity. Qed.

(** C6 (amended): [predict] has no handler around the processing of an
    instance.  A mask instance raises exactly when it has no box, when the
    class id of its box is not a number or has no name, when the resample
    raises or when [mask_to_polygon] raises; a box without mask raises
    exactly when its class id is not a number or has no name.  When the
    instances before one are processed normally and that one raises, the
    exception is the outcome of [predict], which returns no shapes at all.
    A score that is NaN raises nothing: the instance is kept and the NaN is
    copied into its shapes. *)
Theorem instance_exception_aborts_predict
    (cv2 : Cv2) (self : Plugin) (m : Model) (image : Image)
    (call_params : gmap string value) :
  let show_boxes := get (params self) "show_boxes" (VBool false) in
  let epsilon_factor :=
    get call_params "epsilon_factor"
      (get (params self) "epsilon_factor" (VNum 0.001)) in
  let orig_h := fst (shape2 image) in
  let orig_w := snd (shape2 image) in
  model self = Some m ->
  (* what makes one instance raise *)
  (forall result shapes i mask e,
      mask_instance cv2 show_boxes epsilon_factor orig_h orig_w result
        shapes (i, mask) = Err e
      <-> mask_fault cv2 epsilon_factor orig_h orig_w result i mask e)
  /\ (forall result shapes box e,
        box_instance result shapes box = Err e <-> box_fault result box e)
  (* one instance that raises makes the call raise *)
  /\ (forall rs_before result rs_after shapes0 e,
        call m image
          (Some (get call_params "conf_threshold"
                   (get (params self) "conf_threshold" (VNum 0.25))))
          (Some (get call_params "iou_threshold"
                   (get (params self) "iou_threshold" (VNum 0.70))))
        = Ok (rs_before ++ result :: rs_after) ->
        for_each (result_shapes cv2 show_boxes epsilon_factor orig_h orig_w)
          rs_before [] = Ok shapes0 ->
        (forall mask_data pre i mask post shapes1,
            masks result = Some mask_data ->
            enumerate mask_data = pre ++ (i, mask) :: post ->
            for_each
              (mask_instance cv2 show_boxes epsilon_factor orig_h orig_w result)
              pre shapes0 = Ok shapes1 ->
            mask_fault cv2 epsilon_factor orig_h orig_w result i mask e ->
            predict cv2 self image call_params = Err e)
        /\ (forall pre box post shapes1,
              masks result = None ->
              boxes result = Some (pre ++ box :: post) ->
              for_each (box_instance result) pre shapes0 = Ok shapes1 ->
              box_fault result box e ->
              predict cv2 self image call_params = Err e))
  (* a NaN score is kept *)
  /\ (forall result shapes i mask mask' box c name pts,
        box_at (boxes result) i = Ok box ->
        int (cls box) = Ok c ->
        names result !! c = Some name ->
        resample cv2 mask orig_h orig_w = Ok mask' ->
        mask_to_polygon cv2 mask' epsilon_factor = Ok pts ->
        (3 <= length pts)%nat ->
        conf box = NaN ->
        mask_instance cv2 show_boxes epsilon_factor orig_h orig_w result
          shapes (i, mask)
        = Ok ((if truthy show_boxes
               then shapes ++ [bbox_shape name box NaN]
               else shapes)
              ++ [mask_shape name (close_ring (float_points pts)) NaN]))
  /\ (forall result shapes box c name,
        int (cls box) = Ok c ->
        names result !! c = Some name ->
        conf box = NaN ->
        box_instance result shapes box = Ok (shapes ++ [bbox_shape name box NaN])).
Proof.
  intros show_boxes epsilon_factor orig_h orig_w Hm.
  split; [intros; apply mask_instance_raises_iff|].
  split; [intros; apply box_instance_raises_iff|].
  split; [|split].
  - intros rs_before result rs_after shapes0 e Hcall Hbefore.
    assert (Hresult :
              result_shapes cv2 show_boxes epsilon_factor orig_h orig_w
                shapes0 result = Err e ->
              predict cv2 self image call_params = Err e).
    { intros Hres. unfold predict, getattr_model. rewrite Hm.
      fold show_boxes epsilon_factor.
      subst orig_h orig_w. destruct (shape2 image) as [h w]. cbn [fst snd] in *.
      cbn [bind]. rewrite Hcall. cbn [bind].
      rewrite (for_each_raises _ rs_before rs_after result [] shapes0 e Hbefore Hres).
      reflexivity. }
    split.
    + intros mask_data pre i mask post shapes1 Hmasks Henum Hpre Hfault.
      apply Hresult. unfold result_shapes. rewrite Hmasks, Henum.
      apply (for_each_raises _ pre post (i, mask) shapes0 shapes1 e Hpre).
      apply mask_instance_raises_iff, Hfault.
    + intros pre box post shapes1 Hmasks Hboxes Hpre Hfault.
      apply Hresult. unfold result_shapes. rewrite Hmasks, Hboxes.
      apply (for_each_raises _ pre post box shapes0 shapes1 e Hpre).
      apply box_instance_raises_iff, Hfault.
  - intros result shapes i mask mask' box c name pts
      Hbox Hcls Hname Hmask Hpts Hlen Hnan.
    rewrite (mask_instance_eq _ _ _ _ _ _ _ _ _ _ _ _ _ _ Hbox Hcls Hname Hmask Hpts).
    apply Nat.ltb_ge in Hlen. rewrite Hlen, Hnan. reflexivity.
  - intros result shapes box c name Hcls Hname Hnan.
    unfold box_instance. rewrite Hcls. cbn [bind]. rewrite Hname, Hnan.
    reflexivity.
Qed.

Lemma instance_exception_aborts_predict_witness :
  predict standin_cv2 (sample_loaded [two_instance_result]) sample_image ∅
  = Err ValueError
  /\ predict standin_cv2 (sample_loaded [bad_box_result]) sample_image ∅
     = Err ValueError
  /\ mask_instance standin_cv2 (VBool false) (VNum 0.001) 4 4
       {| boxes := Some [nan_conf_box]; masks := Some [sample_mask];
          names := sample_names |}
       [] (0%nat, sample_mask)
     = Ok [mask_shape "person"
             [(Fin 1, Fin 1); (Fin 1, Fin 2); (Fin 2, Fin 2); (Fin 2, Fin 1);
              (Fin 1, Fin 1)]
             NaN]
  /\ box_instance box_only_result [] nan_conf_box
     = Ok [bbox_shape "person" nan_conf_box NaN].
Proof.
  destruct (instance_exception_aborts_predict standin_cv2
              (sample_loaded [two_instance_result])
              (constant_model [two_instance_result]) sample_image ∅ eq_refl)
    as (_ & _ & Habort & Hnan & Hnan_box).
  destruct (instance_exception_aborts_predict standin_cv2
              (sample_loaded [bad_box_result])
              (constant_model [bad_box_result]) sample_image ∅ eq_refl)
    as (_ & _ & Habort_box & _ & _).
  split; [|split; [|split]].
  - apply (proj1 (Habort [] two_instance_result [] [] ValueError eq_refl eq_refl)
             [sample_mask; sample_mask] [] 0%nat sample_mask
             [(1%nat, sample_mask)] []);
      [reflexivity | reflexivity | reflexivity |].
    apply (bad_box _ _ _ _ _ _ _ nan_cls_box); [reflexivity|].
    apply class_not_int. reflexivity.
  - apply (proj2 (Habort_box [] bad_box_result [] [] ValueError eq_refl eq_refl)
             [sample_box] nan_cls_box []
             [bbox_shape "person" sample_box (Fin (9 # 10))]);
      [reflexivity | reflexivity | vm_compute; reflexivity |].
    apply class_not_int. reflexivity.
  - apply (Hnan {| boxes := Some [nan_conf_box]; masks := Some [sample_mask];
                   names := sample_names |}
             [] 0%nat sample_mask sample_mask nan_conf_box 0 "person"
             [(1, 1); (1, 2); (2, 2); (2, 1)]%Q);
      [reflexivity | reflexivity | reflexivity | reflexivity
      | vm_compute; reflexivity | simpl; lia | reflexivity].
  - apply (Hnan_box box_only_result [] nan_conf_box 0 "person");
      reflexivity.
Defined.

(** ** Binarisation of the mask *)

Lemma astype_uint8_scaled (v : Q) :
  (0 <= v)%Q -> (v <= 1)%Q ->
  astype_uint8 (v * 255)%Q = Qnum v * 255 / Z.pos (Qden v)
  /\ 0 <= Qnum v * 255 / Z.pos (Qden v) <= 255.
Proof.
  destruct v as [n d]. unfold Qle. cbn [Qnum Qden]. intros H0 H1.
  assert (Hn : 0 <= n) by lia.
  assert (Hd : n <= Z.pos d) by lia.
  assert (Hq : 0 <= n * 255 / Z.pos d <= 255).
  { split; [apply Z.div_pos; lia|].
    apply Z.div_le_upper_bound; lia. }
  split; [|exact Hq].
  unfold astype_uint8, trunc. cbn [Qmult Qnum Qden].
  rewrite Pos.mul_1_r, Z.quot_div_nonneg by lia.
  apply Z.mod_small. lia.
Qed.

Lemma foreground_threshold (v : Q) :
  (0 <= v)%Q -> (v <= 1)%Q ->
  foreground (astype_uint8 (v * 255)%Q) = true <-> (1 # 255 <= v)%Q.
Proof.
  intros H0 H1. destruct (astype_uint8_scaled v H0 H1) as [-> Hq].
  unfold foreground. rewrite negb_true_iff, Z.eqb_neq.
  destruct v as [n d]. unfold Qle in *. cbn [Qnum Qden] in *.
  split.
  - intros Hne. destruct (Z_lt_le_dec (n * 255) (Z.pos d)) as [Hlt|Hle]; [|lia].
    exfalso. apply Hne. apply Z.div_small. lia.
  - intros Hle Hz. apply Z.div_small_iff in Hz; lia.
Qed.

Lemma lookup_map {A B : Type} (f : A -> B) (l : list A) (i : nat) (x : A) :
  l !! i = Some x -> map f l !! i = Some (f x).
Proof.
  revert i. induction l as [|y l IH]; intros [|i] H; try discriminate.
  - injection H as ->. reflexivity.
  - cbn. apply IH. exact H.
Qed.

(** C3, as the specification states it, fails: the strictly positive mask
    value 1/512 (in binary floating point 1/512 and 255/512 are exact) is
    binarised to 0, which [findContours] reads as background. *)
Lemma small_positive_value_is_background :
  (0 < 1 # 512)%Q
  /\ to_mask_uint8 [[1 # 512]]%Q = [[0]]
  /\ foreground 0 = false.
Proof. repeat split. Qed.

(** C3 (amended): the mask is multiplied by 255 and truncated to 8 bits
    before contour tracing, so a mask value [v] between 0 and 1 is
    foreground exactly when [255 * v >= 1], that is when [v >= 1/255];
    positive values below 1/255 are background like 0. *)
Theorem binarize_threshold (mask : Mask) (r c : nat) (row : list Q) (v : Q) :
  mask !! r = Some row ->
  row !! c = Some v ->
  (0 <= v)%Q -> (v <= 1)%Q ->
  exists row8 px,
    to_mask_uint8 mask !! r = Some row8
    /\ row8 !! c = Some px
    /\ px = astype_uint8 (v * 255)%Q
    /\ (foreground px = true <-> (1 # 255 <= v)%Q).
Proof.
  intros Hr Hc H0 H1.
  exists (map (fun v => astype_uint8 (v * 255)%Q) row), (astype_uint8 (v * 255)%Q).
  unfold to_mask_uint8.
  split; [exact (lookup_map _ mask r row Hr)|].
  split; [exact (lookup_map _ row c v Hc)|].
  split; [reflexivity|].
  apply foreground_threshold; assumption.
Qed.

Lemma binarize_threshold_witness :
  exists row8 px,
    to_mask_uint8 sample_mask !! 1%nat = Some row8
    /\ row8 !! 2%nat = Some px
    /\ px = astype_uint8 (1 * 255)%Q
    /\ (foreground px = true <-> (1 # 255 <= 1)%Q).
Proof.
  apply (binarize_threshold sample_mask 1 2 [0; 1; 1; 0]%Q 1%Q);
    [reflexivity | reflexivity | discriminate | discriminate].
Defined.

(** ** Closing the ring *)

Lemma point_eqb_refl_fin (x y : Q) : point_eqb (Fin x, Fin y) (Fin x, Fin y) = true.
Proof.
  unfold point_eqb, float_eqb. cbn [fst snd].
  rewrite !(proj2 (Qeq_bool_iff _ _)) by reflexivity. reflexivity.
Qed.

Lemma close_ring_closed (p0 : float * float) (l : list (float * float)) :
  point_eqb p0 (List.last (p0 :: l) p0) = true ->
  close_ring (p0 :: l) = p0 :: l.
Proof. intros H. unfold close_ring. rewrite H. reflexivity. Qed.

(** C8: closing a ring that is already closed changes nothing: for a
    non-empty list whose first point equals its last, the closing step
    returns the list itself.  Hence closing twice the points of a contour
    is the same as closing them once. *)
Theorem close_ring_idempotent :
  (forall (p0 : float * float) (l : list (float * float)),
      point_eqb p0 (List.last (p0 :: l) p0) = true ->
      close_ring (p0 :: l) = p0 :: l)
  /\ (forall pts : list Point,
        close_ring (close_ring (float_points pts))
        = close_ring (float_points pts)).
Proof.
  split; [exact close_ring_closed|].
  intros [|[x y] pts]; [reflexivity|].
  unfold float_points. cbn [map fst snd].
  set (p0 := (Fin x, Fin y)). set (l := map _ pts).
  destruct (point_eqb p0 (List.last (p0 :: l) p0)) eqn:Heq.
  - rewrite !(close_ring_closed p0 l Heq). reflexivity.
  - assert (Hopen : close_ring (p0 :: l) = p0 :: (l ++ [p0])).
    { unfold close_ring. rewrite Heq. reflexivity. }
    rewrite Hopen. apply close_ring_closed.
    change (p0 :: (l ++ [p0])) with ((p0 :: l) ++ [p0]).
    rewrite last_last. apply point_eqb_refl_fin.
Qed.

Lemma close_ring_idempotent_witness :
  close_ring [(Fin 1, Fin 1); (Fin 1, Fin 2); (Fin 2, Fin 2); (Fin 1, Fin 1)]
  = [(Fin 1, Fin 1); (Fin 1, Fin 2); (Fin 2, Fin 2); (Fin 1, Fin 1)]
  /\ close_ring (close_ring (float_points [(1, 1); (1, 2); (2, 2)]%Q))
     = [(Fin 1, Fin 1); (Fin 1, Fin 2); (Fin 2, Fin 2); (Fin 1, Fin 1)].
Proof.
  destruct close_ring_idempotent as [Hclosed Htwice].
  split.
  - apply (Hclosed (Fin 1, Fin 1) [(Fin 1, Fin 2); (Fin 2, Fin 2); (Fin 1, Fin 1)]).
    reflexivity.
  - rewrite (Htwice [(1, 1); (1, 2); (2, 2)]%Q). reflexivity.
Defined.

(** ** Simplification and the tolerance *)

Lemma Qltb_lt (x y : Q) : Qltb x y = true <-> (x < y)%Q.
Proof.
  unfold Qltb. rewrite negb_true_iff. split.
  - intros H. apply Qnot_le_lt. intros Hle.
    apply Qle_bool_iff in Hle. congruence.
  - intros H. destruct (Qle_bool y x) eqn:E; [|reflexivity].
    apply Qle_bool_iff in E. exfalso. exact (Qlt_not_le _ _ H E).
Qed.

Lemma Qltb_ge (x y : Q) : Qltb x y = false <-> (y <= x)%Q.
Proof.
  unfold Qltb. rewrite negb_false_iff. apply Qle_bool_iff.
Qed.

(** One step of [simplify] on a polyline of at least three points. *)
Lemma simplify_step (fuel : nat) (eps : Q) (a p1 p2 : Z * Z) (rest : list (Z * Z)) :
  let pts := a :: p1 :: p2 :: rest in
  let b := List.last (p1 :: p2 :: rest) a in
  let k := S (argmax (map (dist2_num a b) (removelast (p1 :: p2 :: rest)))) in
  simplify (S fuel) eps pts =
  match pts !! k with
  | Some p =>
      if beyond eps a b p then
        simplify fuel eps (take (S k) pts) ++ tail (simplify fuel eps (drop k pts))
      else [a; b]
  | None => [a; b]
  end.
Proof. reflexivity. Qed.

Lemma simplify_short (fuel : nat) (eps : Q) (pts : list (Z * Z)) :
  (length pts <= 2)%nat -> simplify fuel eps pts = pts.
Proof.
  intros H. destruct fuel; [reflexivity|].
  destruct pts as [|a [|p1 [|p2 rest]]]; try reflexivity.
  cbn [length] in H. lia.
Qed.



Lemma argmax_from_lt (best_i : nat) (best : Z) (i : nat) (ds : list Z) :
  (best_i < i)%nat -> (argmax_from best_i best i ds < i + length ds)%nat.
Proof.
  revert best_i best i. induction ds as [|d ds IH]; intros best_i best i Hlt.
  - cbn. lia.
  - cbn [argmax_from length]. destruct (best <? d).
    + pose proof (IH i d (S i) ltac:(lia)). lia.
    + pose proof (IH best_i best (S i) ltac:(lia)). lia.
Qed.

Lemma argmax_lt (ds : list Z) : ds <> [] -> (argmax ds < length ds)%nat.
Proof.
  destruct ds as [|d ds]; [congruence|]. intros _.
  unfold argmax. pose proof (argmax_from_lt 0 d 1 ds ltac:(lia)).
  cbn [length]. lia.
Qed.

(** The split point is an interior point of the polyline. *)
Lemma split_point_interior (a b p1 p2 : Z * Z) (rest : list (Z * Z)) :
  let k := S (argmax (map (dist2_num a b) (removelast (p1 :: p2 :: rest)))) in
  (1 <= k)%nat /\ (S k < length (a :: p1 :: p2 :: rest))%nat.
Proof.
  cbv zeta. split; [lia|].
  assert (Hlen : length (removelast (p1 :: p2 :: rest)) = S (length rest)).
  { change (p1 :: p2 :: rest) with ([p1] ++ p2 :: rest).
    rewrite removelast_app by discriminate. cbn [app length].
    f_equal. clear. revert p2. induction rest as [|x rest IH]; intros p2.
    - reflexivity.
    - change (length (p2 :: removelast (x :: rest)) = S (length rest)).
      cbn [length]. f_equal. apply IH. }
  pose proof (argmax_lt (map (dist2_num a b) (removelast (p1 :: p2 :: rest)))) as H.
  rewrite length_map, Hlen in H. cbn [length].
  assert (map (dist2_num a b) (removelast (p1 :: p2 :: rest)) <> []).
  { intros E. apply (f_equal (@length Z)) in E. rewrite length_map, Hlen in E.
    discriminate. }
  specialize (H ltac:(assumption)). lia.
Qed.

(** [length pts] units of fuel are enough: more fuel changes nothing. *)
Lemma simplify_fuel (f1 f2 : nat) (eps : Q) (pts : list (Z * Z)) :
  (length pts <= f1)%nat -> (length pts <= f2)%nat ->
  simplify f1 eps pts = simplify f2 eps pts.
Proof.
  revert f2 pts. induction f1 as [|f1 IH]; intros f2 pts H1 H2.
  - destruct pts; [|cbn in H1; lia]. rewrite !simplify_short by (cbn; lia).
    reflexivity.
  - destruct pts as [|a [|p1 [|p2 rest]]];
      try (rewrite !simplify_short by (cbn; lia); reflexivity).
    destruct f2 as [|f2]; [cbn in H2; lia|].
    rewrite !simplify_step. cbv zeta.
    pose proof (split_point_interior a (List.last (p1 :: p2 :: rest) a) p1 p2 rest)
      as [Hk1 Hk2]. cbv zeta in Hk1, Hk2.
    set (pts := a :: p1 :: p2 :: rest) in *.
    set (b := List.last _ a) in *.
    set (k := S (argmax _)) in *.
    destruct (pts !! k) as [p|]; [|reflexivity].
    destruct (beyond eps a b p); [|reflexivity].
    rewrite (IH f2 (take (S k) pts)), (IH f2 (drop k pts));
      rewrite ?length_take, ?length_drop; try lia; reflexivity.
Qed.




Lemma gt_zero_nonpositive (v : value) (e : Q) :
  to_number v = Ok e -> (e <= 0)%Q -> gt_zero v = Ok false.
Proof.
  intros Hv He. unfold gt_zero. rewrite Hv. cbn [bind].
  rewrite (proj2 (Qltb_ge 0 e) He). reflexivity.
Qed.

Lemma gt_zero_positive (v : value) (e : Q) :
  to_number v = Ok e -> (0 < e)%Q -> gt_zero v = Ok true.
Proof.
  intros Hv He. unfold gt_zero. rewrite Hv. cbn [bind].
  rewrite (proj2 (Qltb_lt 0 e) He). reflexivity.
Qed.

(** A number that is not positive leaves the contour as it is. *)
Lemma approx_contour_nonpositive (cv2 : Cv2) (c : Contour) (v : value) (e : Q) :
  to_number v = Ok e -> (e <= 0)%Q -> approx_contour cv2 c v = Ok c.
Proof.
  intros Hv He. unfold approx_contour.
  rewrite (gt_zero_nonpositive v e Hv He). reflexivity.
Qed.




(** The stand-in on [sample_mask]: four corners for a small tolerance, one
    point for a large one. *)
Example mask_to_polygon_sample :
  mask_to_polygon standin_cv2 sample_mask (VNum (1 # 1000))
  = Ok [(1, 1); (1, 2); (2, 2); (2, 1)]%Q
  /\ mask_to_polygon standin_cv2 sample_mask (VNum 5) = Ok [(1, 1)]%Q.
Proof. split; vm_compute; reflexivity. Qed.

(** ** The prompt parser *)

Section Strings.

Implicit Types (s t : string) (c : ascii).

Lemma lstrip_head s :
  lstrip s = EmptyString
  \/ exists c r, lstrip s = String c r /\ is_space c = false.
Proof.
  induction s as [|c s IH]; [left; reflexivity|].
  cbn [lstrip]. destruct (is_space c) eqn:E; [exact IH|].
  right. exists c, s. split; [reflexivity | exact E].
Qed.

Lemma rstrip_cons c s :
  is_space c = false -> rstrip (String c s) = String c (rstrip s).
Proof.
  intros E. cbn [rstrip]. destruct (rstrip s); [rewrite E|]; reflexivity.
Qed.

Lemma rstrip_idem s : rstrip (rstrip s) = rstrip s.
Proof.
  induction s as [|c s IH]; [reflexivity|].
  cbn [rstrip]. destruct (rstrip s) as [|d r] eqn:E.
  - destruct (is_space c) eqn:Ec; [reflexivity|].
    cbn [rstrip]. rewrite Ec. reflexivity.
  - change (rstrip (String c (String d r))) with
      (match rstrip (String d r) with
       | EmptyString => if is_space c then EmptyString else String c EmptyString
       | r' => String c r'
       end).
    rewrite IH. reflexivity.
Qed.

Lemma strip_idem s : strip (strip s) = strip s.
Proof.
  unfold strip. destruct (lstrip_head s) as [->|(c & r & -> & Ec)]; [reflexivity|].
  rewrite (rstrip_cons c r Ec). cbn [lstrip]. rewrite Ec.
  rewrite <- (rstrip_cons c r Ec). apply rstrip_idem.
Qed.

Lemma strip_empty_iff s : strip s = EmptyString <-> lstrip s = EmptyString.
Proof.
  unfold strip. split; [|intros ->; reflexivity].
  destruct (lstrip_head s) as [->|(c & r & -> & Ec)]; [reflexivity|].
  rewrite (rstrip_cons c r Ec). discriminate.
Qed.

Lemma lstrip_empty_iff s :
  lstrip s = EmptyString
  <-> forall c, In c (list_ascii_of_string s) -> is_space c = true.
Proof.
  induction s as [|c s IH]; cbn [lstrip list_ascii_of_string].
  - split; [intros _ c []|reflexivity].
  - destruct (is_space c) eqn:E.
    + rewrite IH. split.
      * intros H d [<-|Hd]; [exact E | apply H, Hd].
      * intros H d Hd. apply H. right. exact Hd.
    + split; [discriminate|]. intros H.
      rewrite (H c (or_introl eq_refl)) in E. discriminate.
Qed.

Lemma lstrip_chars s c :
  In c (list_ascii_of_string (lstrip s)) -> In c (list_ascii_of_string s).
Proof.
  induction s as [|d s IH]; [intros []|].
  cbn [lstrip]. destruct (is_space d); [|exact id].
  intros H. right. apply IH, H.
Qed.

Lemma rstrip_chars s c :
  In c (list_ascii_of_string (rstrip s)) -> In c (list_ascii_of_string s).
Proof.
  induction s as [|d s IH]; [intros []|].
  cbn [rstrip]. destruct (rstrip s) as [|e r].
  - destruct (is_space d); [intros []|].
    intros [<-|[]]. left. reflexivity.
  - intros [<-|H]; [left; reflexivity|]. right. apply IH, H.
Qed.

Lemma strip_chars s c :
  In c (list_ascii_of_string (strip s)) -> In c (list_ascii_of_string s).
Proof. intros H. apply lstrip_chars, rstrip_chars, H. Qed.

(** Every character of a piece is a character of the text outside the
    class. *)
Lemma re_split_chars (class : list ascii) (text p : string) c :
  In p (re_split class text) ->
  In c (list_ascii_of_string p) ->
  In c (list_ascii_of_string text) /\ existsb (Ascii.eqb c) class = false.
Proof.
  revert p. induction text as [|d text IH]; intros p; cbn [re_split].
  - intros [<-|[]] [].
  - destruct (existsb (Ascii.eqb d) class) eqn:Ed.
    + intros [<-|Hp] Hc; [destruct Hc|].
      destruct (IH p Hp Hc) as [H1 H2]. split; [right; exact H1 | exact H2].
    + destruct (re_split class text) as [|q qs] eqn:Eq.
      * intros [<-|[]] [<-|[]]. split; [left; reflexivity | exact Ed].
      * intros [<-|Hp] Hc.
        -- destruct Hc as [<-|Hc]; [split; [left; reflexivity | exact Ed]|].
           destruct (IH q (or_introl eq_refl) Hc) as [H1 H2].
           split; [right; exact H1 | exact H2].
        -- destruct (IH p (or_intror Hp) Hc) as [H1 H2].
           split; [right; exact H1 | exact H2].
Qed.

(** The pieces, put together again with the separators that were cut,
    are the text. *)
Lemma re_split_interleave (class : list ascii) (text : string) :
  exists seps,
    length (re_split class text) = S (length seps)
    /\ Forall (fun c => existsb (Ascii.eqb c) class = true) seps
    /\ interleave (re_split class text) seps = text.
Proof.
  induction text as [|d text (seps & Hlen & Hin & Hjoin)]; cbn [re_split].
  - exists []. repeat split. constructor.
  - destruct (existsb (Ascii.eqb d) class) eqn:Ed.
    + exists (d :: seps). split; [cbn [length]; rewrite Hlen; reflexivity|].
      split; [constructor; assumption|].
      cbn [interleave String.append]. rewrite Hjoin. reflexivity.
    + destruct (re_split class text) as [|q qs]; [discriminate|].
      exists seps. split; [exact Hlen|]. split; [exact Hin|].
      destruct seps as [|e seps]; subst text; reflexivity.
Qed.

End Strings.

Lemma filter_conj {A : Type} (f g h : A -> bool) (l : list A) :
  (forall x, f x = g x && h x) ->
  List.filter f l = List.filter g (List.filter h l).
Proof.
  intros Hf. induction l as [|x l IH]; [reflexivity|].
  cbn [List.filter]. rewrite Hf. destruct (h x); cbn [List.filter].
  - rewrite andb_true_r. destruct (g x); rewrite IH; reflexivity.
  - rewrite andb_false_r. exact IH.
Qed.

(** Trimming the pieces that do not trim to nothing, or trimming all of
    them and dropping the empty ones: the same list. *)
Lemma map_strip_filter (l : list string) :
  map strip (List.filter (fun p => negb (String.eqb (strip p) "")) l)
  = List.filter (fun p => negb (String.eqb p "")) (map strip l).
Proof.
  induction l as [|p l IH]; [reflexivity|].
  cbn [List.filter map]. destruct (negb (String.eqb (strip p) ""));
    cbn [map]; rewrite IH; reflexivity.
Qed.

(** The keys [dict.fromkeys] accumulates, started from the keys [keys]. *)
Lemma fold_fromkeys (l keys : list string) :
  fold_left
    (fun keys k => if existsb (String.eqb k) keys then keys else keys ++ [k])
    l keys
  = keys ++ List.filter (fun y => negb (existsb (String.eqb y) keys))
              (first_occurrences l).
Proof.
  revert keys. induction l as [|x l IH]; intros keys.
  - cbn. rewrite app_nil_r. reflexivity.
  - cbn [fold_left first_occurrences List.filter].
    destruct (existsb (String.eqb x) keys) eqn:Ex; cbn [negb].
    + rewrite IH. f_equal. apply filter_conj. intros y.
      destruct (String.eqb_spec y x) as [->|Hne]; cbn [negb].
      * rewrite Ex. reflexivity.
      * rewrite andb_true_r. reflexivity.
    + rewrite IH, <- app_assoc. cbn [app]. do 2 f_equal.
      apply filter_conj. intros y.
      rewrite existsb_app. cbn [existsb]. rewrite orb_false_r, negb_orb.
      reflexivity.
Qed.

Lemma dict_fromkeys_first_occurrences (l : list string) :
  dict_fromkeys l = first_occurrences l.
Proof.
  unfold dict_fromkeys. rewrite fold_fromkeys. cbn [app existsb negb].
  induction (first_occurrences l) as [|x r IH]; [reflexivity|].
  cbn [List.filter]. rewrite IH. reflexivity.
Qed.

Lemma first_occurrences_In (l : list string) (p : string) :
  In p (first_occurrences l) <-> In p l.
Proof.
  induction l as [|x l IH]; [reflexivity|].
  cbn [first_occurrences In]. rewrite filter_In, IH, negb_true_iff, String.eqb_neq.
  destruct (String.eqb_spec x p) as [->|Hne]; [tauto|].
  split; [tauto|]. intros [E|H]; [tauto|]. right. split; [exact H | congruence].
Qed.

Lemma first_occurrences_NoDup (l : list string) :
  List.NoDup (first_occurrences l).
Proof.
  induction l as [|x l IH]; [constructor|].
  cbn [first_occurrences]. constructor.
  - rewrite filter_In, String.eqb_refl. intros [_ H]. discriminate.
  - apply List.NoDup_filter, IH.
Qed.

Lemma strip_blank_pieces (class : list ascii) (text : string) :
  strip text = "" ->
  List.filter (fun p => negb (String.eqb p "")) (map strip (re_split class text)) = [].
Proof.
  intros Hblank.
  pose proof (proj1 (lstrip_empty_iff text) (proj1 (strip_empty_iff text) Hblank))
    as Hspaces.
  assert (H : forall p, In p (re_split class text) -> strip p = "").
  { intros p Hp. apply (proj2 (strip_empty_iff p)), (proj2 (lstrip_empty_iff p)).
    intros c Hc.
    apply Hspaces. exact (proj1 (re_split_chars class text p c Hp Hc)). }
  induction (re_split class text) as [|p l IH]; [reflexivity|].
  cbn [map List.filter]. rewrite (H p (or_introl eq_refl)). cbn.
  apply IH. intros q Hq. apply H. right. exact Hq.
Qed.

Lemma parse_prompts_blank (text : string) (separators : option (list string))
    (deduplicate : bool) :
  strip text = "" -> parse_prompts text separators deduplicate = Ok [].
Proof. intros H. unfold parse_prompts. rewrite H. reflexivity. Qed.

Lemma parse_prompts_refines (text : string) (separators : list string)
    (deduplicate : bool) :
  class_chars separators <> [] ->
  parse_prompts text (Some separators) deduplicate
  = Ok (spec_parse (class_chars separators) text deduplicate).
Proof.
  intros Hclass. unfold parse_prompts, spec_parse.
  destruct (String.eqb_spec (strip text) "") as [Hblank|Hne].
  - rewrite (strip_blank_pieces _ _ Hblank). destruct deduplicate; reflexivity.
  - destruct (class_chars separators) as [|c class] eqn:E; [congruence|].
    cbn [bind]. rewrite map_strip_filter.
    destruct deduplicate; [rewrite dict_fromkeys_first_occurrences|]; reflexivity.
Qed.

Lemma spec_parse_In (class : list ascii) (text : string) (deduplicate : bool)
    (p : string) :
  In p (spec_parse class text deduplicate) ->
  p <> ""
  /\ strip p = p
  /\ (forall c, In c (list_ascii_of_string p) -> existsb (Ascii.eqb c) class = false).
Proof.
  unfold spec_parse. intros H.
  assert (Hkept : In p (List.filter (fun p => negb (String.eqb p ""))
                          (map strip (re_split class text)))).
  { destruct deduplicate; [apply first_occurrences_In|]; exact H. }
  apply filter_In in Hkept as [Hmap Hne].
  apply in_map_iff in Hmap as (q & <- & Hq).
  split; [apply String.eqb_neq, negb_true_iff, Hne|].
  split; [apply strip_idem|].
  intros c Hc. apply strip_chars in Hc.
  exact (proj2 (re_split_chars class text q c Hq Hc)).
Qed.

(** C7: [parse_prompts] cuts the text at every separator character, trims
    each piece, drops the pieces that are empty after trimming and, when
    [deduplicate] is set, keeps the first occurrence of each prompt in the
    order of first occurrence; a text that is empty or all white space
    gives the empty list.  (The character class of an empty separator list
    does not compile: that call raises unless the text is blank.) *)
Theorem parse_prompts_spec :
  (* the parser is the specified pipeline *)
  (forall text separators deduplicate,
      class_chars separators <> [] ->
      parse_prompts text (Some separators) deduplicate
      = Ok (spec_parse (class_chars separators) text deduplicate))
  /\ (forall text deduplicate,
        parse_prompts text None deduplicate
        = Ok (spec_parse [","; "."]%char text deduplicate))
  (* blank input *)
  /\ (forall text separators deduplicate,
        strip text = "" -> parse_prompts text separators deduplicate = Ok [])
  (* the cut: the pieces and the separators between them make up the text,
     and no piece holds a separator *)
  /\ (forall class text,
        (exists seps,
            length (re_split class text) = S (length seps)
            /\ Forall (fun c => existsb (Ascii.eqb c) class = true) seps
            /\ interleave (re_split class text) seps = text)
        /\ (forall p c, In p (re_split class text) ->
                        In c (list_ascii_of_string p) ->
                        existsb (Ascii.eqb c) class = false))
  (* every prompt is non-empty, trimmed and free of separators *)
  /\ (forall class text deduplicate p,
        In p (spec_parse class text deduplicate) ->
        p <> "" /\ strip p = p
        /\ (forall c, In c (list_ascii_of_string p) ->
                      existsb (Ascii.eqb c) class = false))
  (* deduplication keeps every prompt once *)
  /\ (forall class text,
        List.NoDup (spec_parse class text true)
        /\ (forall p, In p (spec_parse class text true)
                      <-> In p (spec_parse class text false)))
  (* the examples of the specification *)
  /\ parse_prompts "a, b, a." None true = Ok ["a"; "b"]
  /\ parse_prompts "a, b, a." None false = Ok ["a"; "b"; "a"]
  /\ parse_prompts "   " None true = Ok [].
Proof.
  split; [exact parse_prompts_refines|].
  split; [intros text d; apply (parse_prompts_refines text [","; "."] d); discriminate|].
  split; [exact parse_prompts_blank|].
  split.
  { intros class text. split; [apply re_split_interleave|].
    intros p c Hp Hc. exact (proj2 (re_split_chars class text p c Hp Hc)). }
  split; [exact spec_parse_In|].
  split.
  { intros class text. unfold spec_parse. split.
    - apply first_occurrences_NoDup.
    - intros p. apply first_occurrences_In. }
  repeat split; vm_compute; reflexivity.
Qed.

Lemma parse_prompts_spec_witness :
  parse_prompts " x y ;; z,,  ,q. x y" (Some [";,"]) true = Ok ["x y"; "z"; "q. x y"]
  /\ parse_prompts (String "009" " ") (Some []) false = Ok []
  /\ ("q. x y" <> "" /\ strip "q. x y" = "q. x y"
      /\ (forall c, In c (list_ascii_of_string "q. x y") ->
                    existsb (Ascii.eqb c) [";"; ","]%char = false)).
Proof.
  destruct parse_prompts_spec as (Hrefines & _ & Hblank & _ & Hin & _).
  split; [|split].
  - rewrite (Hrefines " x y ;; z,,  ,q. x y" [";,"] true) by discriminate.
    vm_compute. reflexivity.
  - apply Hblank. reflexivity.
  - apply (Hin [";"; ","]%char " x y ;; z,,  ,q. x y" true "q. x y").
    vm_compute. right. right. left. reflexivity.
Defined.

(** * Further properties of the code *)

(** ** Construction and metadata *)

(** X1: [__init__] raises exactly when [model_id] or [display_name] is
    missing from the configuration, and what it raises is [KeyError];
    otherwise the instance keeps the configuration, takes both names and
    [params] from it (the empty dictionary when [params] is absent) and
    has no [model] attribute. *)
Theorem init_outcome (cfg : Config) :
  match init cfg with
  | Err e =>
      e = KeyError
      /\ (cfg_model_id cfg = None \/ cfg_display_name cfg = None)
  | Ok self =>
      cfg_model_id cfg = Some (model_id self)
      /\ cfg_display_name cfg = Some (display_name self)
      /\ config self = cfg
      /\ params self = match cfg_params cfg with Some d => d | None => ∅ end
      /\ model self = None
  end.
Proof.
  unfold init, subscript.
  destruct (cfg_model_id cfg) as [mid|]; cbn [bind].
  - destruct (cfg_display_name cfg) as [dn|]; cbn [bind].
    + repeat split.
    + split; [reflexivity | right; reflexivity].
  - split; [reflexivity | left; reflexivity].
Qed.

(** X2: the metadata of a freshly constructed instance is read off the
    configuration alone: the display name, the widgets (none when the key
    is absent), the parameters (empty when absent) and the batch mode
    (["default"] when absent). *)
Theorem get_metadata_of_config (config : Config) (self : Plugin) :
  init config = Ok self ->
  cfg_display_name config = Some (meta_display_name (get_metadata self))
  /\ meta_widgets (get_metadata self)
     = match cfg_widgets config with Some w => w | None => [] end
  /\ meta_params (get_metadata self)
     = match cfg_params config with Some d => d | None => ∅ end
  /\ meta_batch_processing_mode (get_metadata self)
     = match cfg_batch_processing_mode config with
       | Some mode => mode
       | None => VStr "default"
       end.
Proof.
  intros Hinit. unfold init, subscript in Hinit.
  destruct (cfg_model_id config) as [mid|]; [|discriminate].
  destruct (cfg_display_name config) as [dn|]; [|discriminate].
  cbn [bind] in Hinit. injection Hinit as <-. repeat split.
Qed.

Lemma get_metadata_of_config_witness :
  init sample_config = Ok sample_plugin
  /\ get_metadata sample_plugin
     = {| meta_display_name := "YOLO11n-Seg"; meta_widgets := [];
          meta_params := ∅; meta_batch_processing_mode := VStr "default" |}
  /\ cfg_display_name sample_config
     = Some (meta_display_name (get_metadata sample_plugin)).
Proof.
  split; [reflexivity|]. split; [reflexivity|].
  apply (get_metadata_of_config sample_config sample_plugin). reflexivity.
Defined.

(** ** Loading and unloading *)

Lemma load_static (import_YOLO : outcome (value -> outcome Model)) (self : Plugin) :
  let self' := fst (load import_YOLO self) in
  config self' = config self /\ model_id self' = model_id self
  /\ display_name self' = display_name self /\ params self' = params self.
Proof.
  unfold load. destruct import_YOLO as [YOLO|e]; [|repeat split].
  destruct (YOLO _) as [m|e]; repeat split.
Qed.

Lemma unload_static (self : Plugin) :
  config (unload self) = config self /\ model_id (unload self) = model_id self
  /\ display_name (unload self) = display_name self
  /\ params (unload self) = params self.
Proof. unfold unload. destruct (model self); repeat split. Qed.

(** X3: [load], whether it returns or raises, and [unload] change nothing
    but the [model] attribute: the configuration, both names and the
    parameters stay, and so does everything [get_metadata] reports. *)
Theorem lifecycle_keeps_metadata
    (import_YOLO : outcome (value -> outcome Model)) (self : Plugin) :
  let loaded := fst (load import_YOLO self) in
  (config loaded = config self /\ model_id loaded = model_id self
   /\ display_name loaded = display_name self /\ params loaded = params self
   /\ get_metadata loaded = get_metadata self)
  /\ (config (unload self) = config self
      /\ model_id (unload self) = model_id self
      /\ display_name (unload self) = display_name self
      /\ params (unload self) = params self
      /\ get_metadata (unload self) = get_metadata self).
Proof.
  cbv zeta. split.
  - destruct (load_static import_YOLO self) as (Hc & Hm & Hd & Hp).
    repeat (split; [assumption|]).
    unfold get_metadata. rewrite Hc, Hd, Hp. reflexivity.
  - destruct (unload_static self) as (Hc & Hm & Hd & Hp).
    repeat (split; [assumption|]).
    unfold get_metadata. rewrite Hc, Hd, Hp. reflexivity.
Qed.

(** [predict] on an instance that has a model. *)
Lemma predict_with_model (cv2 : Cv2) (self : Plugin) (m : Model) (image : Image)
    (call_params : gmap string value) :
  model self = Some m ->
  predict cv2 self image call_params =
  (do results <-
     call m image
       (Some (get call_params "conf_threshold"
                (get (params self) "conf_threshold" (VNum 0.25))))
       (Some (get call_params "iou_threshold"
                (get (params self) "iou_threshold" (VNum 0.70))));
   do shapes <-
     for_each
       (result_shapes cv2
          (get (params self) "show_boxes" (VBool false))
          (get call_params "epsilon_factor"
             (get (params self) "epsilon_factor" (VNum 0.001)))
          (fst (shape2 image)) (snd (shape2 image)))
       results [];
   Ok {| shapes := shapes; description := "" |}).
Proof.
  intros Hm. unfold predict, getattr_model. rewrite Hm.
  destruct (shape2 image). reflexivity.
Qed.

(** X4: how [load] fails.  When the import or the constructor
    [YOLO(model_path)] raises, the instance is left as it was.  When
    [model.to(device)] or the warm-up run raises, [load] raises the same
    exception but the [model] attribute is already set: a later [predict]
    does not fail on a missing attribute, it runs the network. *)
Theorem load_failure_modes (cv2 : Cv2)
    (import_YOLO : outcome (value -> outcome Model)) (self : Plugin) (e : exn) :
  let model_path := get (params self) "model_path" (VStr "yolo11n-seg.pt") in
  let device := get (params self) "device" (VStr "cpu") in
  (import_YOLO = Err e
   \/ (exists YOLO, import_YOLO = Ok YOLO /\ YOLO model_path = Err e) ->
   load import_YOLO self = (self, Err e))
  /\ (forall YOLO m,
        import_YOLO = Ok YOLO ->
        YOLO model_path = Ok m ->
        to m device = Err e
        \/ (to m device = Ok tt /\ call m dummy_img None None = Err e) ->
        load import_YOLO self = (set_model self (Some m), Err e)
        /\ model (fst (load import_YOLO self)) = Some m
        /\ forall image call_params results,
             call m image
               (Some (get call_params "conf_threshold"
                        (get (params self) "conf_threshold" (VNum 0.25))))
               (Some (get call_params "iou_threshold"
                        (get (params self) "iou_threshold" (VNum 0.70))))
             = Ok results ->
             predict cv2 (fst (load import_YOLO self)) image call_params
             = (do shapes <-
                  for_each
                    (result_shapes cv2
                       (get (params self) "show_boxes" (VBool false))
                       (get call_params "epsilon_factor"
                          (get (params self) "epsilon_factor" (VNum 0.001)))
                       (fst (shape2 image)) (snd (shape2 image)))
                    results [];
                Ok {| shapes := shapes; description := "" |})).
Proof.
  cbv zeta. split.
  - intros [->|(YOLO & -> & HY)]; unfold load; [reflexivity|].
    rewrite HY. reflexivity.
  - intros YOLO m -> HY Hfail.
    assert (Hload : load (Ok YOLO) self = (set_model self (Some m), Err e)).
    { unfold load. rewrite HY. f_equal.
      destruct Hfail as [->|[-> ->]]; reflexivity. }
    rewrite Hload. cbn [fst]. split; [reflexivity|]. split; [reflexivity|].
    intros image call_params results Hcall.
    rewrite (predict_with_model cv2 (set_model self (Some m)) m image
               call_params eq_refl).
    cbn [set_model params]. rewrite Hcall. reflexivity.
Qed.

Lemma load_failure_modes_witness :
  load (Ok (fun _ => Ok cold_model)) sample_plugin
  = (set_model sample_plugin (Some cold_model), Err (Exception "RuntimeError"))
  /\ predict standin_cv2
       (fst (load (Ok (fun _ => Ok cold_model)) sample_plugin)) sample_image ∅
     = Ok {| shapes := []; description := "" |}
  /\ load (Err (Exception "ImportError")) sample_plugin
     = (sample_plugin, Err (Exception "ImportError")).
Proof.
  destruct (load_failure_modes standin_cv2 (Ok (fun _ => Ok cold_model))
              sample_plugin (Exception "RuntimeError")) as [_ Hwarm].
  destruct (Hwarm (fun _ => Ok cold_model) cold_model eq_refl eq_refl
              (or_intror (conj eq_refl eq_refl))) as (Hload & _ & Hpredict).
  split; [exact Hload|]. split.
  - rewrite (Hpredict sample_image ∅ [] eq_refl). reflexivity.
  - apply (load_failure_modes standin_cv2 (Err (Exception "ImportError"))
             sample_plugin (Exception "ImportError")).
    left. reflexivity.
Defined.

(** X5: what [load] installs depends on the configured parameters only,
    not on a model the instance may already hold: once the constructor
    returns a model, loading an instance, loading it a second time and
    loading it after [unload] all end in the same instance and the same
    outcome. *)
Theorem load_replaces_model
    (import_YOLO : outcome (value -> outcome Model)) (self : Plugin)
    (YOLO : value -> outcome Model) (m : Model) :
  import_YOLO = Ok YOLO ->
  YOLO (get (params self) "model_path" (VStr "yolo11n-seg.pt")) = Ok m ->
  model (fst (load import_YOLO self)) = Some m
  /\ load import_YOLO (fst (load import_YOLO self)) = load import_YOLO self
  /\ load import_YOLO (unload self) = load import_YOLO self
  /\ forall previous, load import_YOLO (set_model self previous)
                      = load import_YOLO self.
Proof.
  intros -> HY.
  assert (Hany : forall previous,
             load (Ok YOLO) (set_model self previous) = load (Ok YOLO) self).
  { intros previous. unfold load. cbn [set_model params]. rewrite HY. reflexivity. }
  assert (Hload : fst (load (Ok YOLO) self) = set_model self (Some m)).
  { unfold load. rewrite HY. reflexivity. }
  split; [rewrite Hload; reflexivity|].
  split; [rewrite Hload; apply Hany|].
  split; [|exact Hany].
  unfold unload. destruct (model self); [apply Hany | reflexivity].
Qed.

Lemma load_replaces_model_witness :
  model (fst (load (Ok (fun _ => Ok (constant_model [sample_result])))
                sample_plugin))
  = Some (constant_model [sample_result])
  /\ load (Ok (fun _ => Ok (constant_model [sample_result])))
       (unload (sample_loaded []))
     = load (Ok (fun _ => Ok (constant_model [sample_result]))) (sample_loaded []).
Proof.
  split.
  - apply (load_replaces_model (Ok (fun _ => Ok (constant_model [sample_result])))
             sample_plugin (fun _ => Ok (constant_model [sample_result]))
             (constant_model [sample_result]) eq_refl eq_refl).
  - apply (load_replaces_model (Ok (fun _ => Ok (constant_model [sample_result])))
             (sample_loaded []) (fun _ => Ok (constant_model [sample_result]))
             (constant_model [sample_result]) eq_refl eq_refl).
Defined.

(** X6: [unload] can be called in any state and any number of times: it
    does nothing to an instance without model, unloading twice is
    unloading once, and after it [predict] raises [AttributeError]
    whatever the instance held before. *)
Theorem unload_idempotent (cv2 : Cv2) (self : Plugin) :
  unload (unload self) = unload self
  /\ (model self = None -> unload self = self)
  /\ forall image call_params,
       predict cv2 (unload self) image call_params = Err AttributeError
       /\ predict cv2 (unload (unload self)) image call_params
          = Err AttributeError.
Proof.
  assert (Hidem : unload (unload self) = unload self).
  { unfold unload at 1. rewrite unload_no_model. reflexivity. }
  split; [exact Hidem|]. split.
  - intros Hm. unfold unload. rewrite Hm. reflexivity.
  - intros image call_params. rewrite Hidem.
    split; apply predict_no_model, unload_no_model.
Qed.

Lemma unload_idempotent_witness :
  unload (unload (sample_loaded [sample_result])) = sample_plugin
  /\ unload sample_plugin = sample_plugin.
Proof.
  destruct (unload_idempotent standin_cv2 (sample_loaded [sample_result]))
    as (Hidem & _ & _).
  split; [rewrite Hidem; reflexivity|].
  apply (unload_idempotent standin_cv2 sample_plugin). reflexivity.
Defined.

(** ** Which parameters [predict] reads *)

Lemma get_ext {V : Type} (d1 d2 : gmap string V) (k : string) (dflt : V) :
  d1 !! k = d2 !! k -> get d1 k dflt = get d2 k dflt.
Proof. intros H. unfold get. rewrite H. reflexivity. Qed.

Lemma get_insert_eq {V : Type} (d : gmap string V) (k : string) (v dflt : V) :
  get (<[k := v]> d) k dflt = v.
Proof. unfold get. rewrite lookup_insert_eq. reflexivity. Qed.

(** X7: of the call-time parameters [predict] reads the three keys
    [conf_threshold], [iou_threshold] and [epsilon_factor] and nothing
    else: two dictionaries that agree on them give the same outcome, so
    that adding, changing or removing any other key changes nothing. *)
Theorem predict_reads_three_keys (cv2 : Cv2) (self : Plugin) (image : Image)
    (params1 params2 : gmap string value) :
  params1 !! "conf_threshold" = params2 !! "conf_threshold" ->
  params1 !! "iou_threshold" = params2 !! "iou_threshold" ->
  params1 !! "epsilon_factor" = params2 !! "epsilon_factor" ->
  predict cv2 self image params1 = predict cv2 self image params2.
Proof.
  intros Hc Hi He. unfold predict.
  rewrite (get_ext params1 params2 "conf_threshold" _ Hc).
  rewrite (get_ext params1 params2 "iou_threshold" _ Hi).
  rewrite (get_ext params1 params2 "epsilon_factor" _ He).
  reflexivity.
Qed.

Lemma predict_reads_three_keys_witness :
  predict standin_cv2 (sample_loaded [sample_result]) sample_image
    {[ "verbose" := VBool true; "show_boxes" := VBool true;
       "epsilon_factor" := VNum 5 ]}
  = predict standin_cv2 (sample_loaded [sample_result]) sample_image
      {[ "epsilon_factor" := VNum 5 ]}.
Proof.
  apply (predict_reads_three_keys standin_cv2 (sample_loaded [sample_result])
           sample_image); vm_compute; reflexivity.
Defined.

(** X8: of the instance [predict] reads the model and the configured
    values of [show_boxes] and of those of the three keys that the call
    does not give; a configured threshold is shadowed by a call-time one,
    and no other configured entry ([model_path], [device], ...) matters. *)
Theorem predict_call_time_shadows_configured (cv2 : Cv2) (self1 self2 : Plugin)
    (image : Image) (call_params : gmap string value) :
  model self1 = model self2 ->
  params self1 !! "show_boxes" = params self2 !! "show_boxes" ->
  (forall key,
      In key ["conf_threshold"; "iou_threshold"; "epsilon_factor"] ->
      call_params !! key = None ->
      params self1 !! key = params self2 !! key) ->
  predict cv2 self1 image call_params = predict cv2 self2 image call_params.
Proof.
  intros Hm Hs Hk.
  assert (Hget : forall key dflt,
             In key ["conf_threshold"; "iou_threshold"; "epsilon_factor"] ->
             get call_params key (get (params self1) key dflt)
             = get call_params key (get (params self2) key dflt)).
  { intros key dflt Hin. unfold get at 1 3.
    destruct (call_params !! key) eqn:E; [reflexivity|].
    apply get_ext, Hk; assumption. }
  unfold predict, getattr_model.
  rewrite Hm, (get_ext _ _ "show_boxes" _ Hs).
  rewrite !Hget by (cbn; tauto). reflexivity.
Qed.

Lemma predict_call_time_shadows_configured_witness :
  predict standin_cv2
    {| config := sample_config; model_id := "yolo11n_seg";
       display_name := "YOLO11n-Seg";
       params := {[ "epsilon_factor" := VNum 0; "device" := VStr "cuda" ]};
       model := Some (constant_model [sample_result]) |}
    sample_image {[ "epsilon_factor" := VNum 5 ]}
  = predict standin_cv2 (sample_loaded [sample_result]) sample_image
      {[ "epsilon_factor" := VNum 5 ]}.
Proof.
  apply predict_call_time_shadows_configured.
  - reflexivity.
  - vm_compute. reflexivity.
  - intros key [<-|[<-|[<-|[]]]] H; vm_compute in H |- *;
      first [reflexivity | discriminate].
Defined.

(** X9: a key given neither at call time nor in the configuration takes
    the default written in [predict]: 0.25 for [conf_threshold], 0.70 for
    [iou_threshold], 0.001 for [epsilon_factor].  Passing the resolved
    values explicitly gives the same outcome. *)
Theorem predict_resolved_parameters (cv2 : Cv2) (self : Plugin) (image : Image)
    (call_params : gmap string value) :
  predict cv2 self image call_params =
  predict cv2 self image
    (<["conf_threshold" :=
         get call_params "conf_threshold"
           (get (params self) "conf_threshold" (VNum 0.25))]>
       (<["iou_threshold" :=
            get call_params "iou_threshold"
              (get (params self) "iou_threshold" (VNum 0.70))]>
          (<["epsilon_factor" :=
               get call_params "epsilon_factor"
                 (get (params self) "epsilon_factor" (VNum 0.001))]>
             call_params))).
Proof.
  unfold predict.
  rewrite get_insert_eq.
  rewrite (get_insert_ne _ "conf_threshold" "iou_threshold") by discriminate.
  rewrite get_insert_eq.
  rewrite (get_insert_ne _ "conf_threshold" "epsilon_factor") by discriminate.
  rewrite (get_insert_ne _ "iou_threshold" "epsilon_factor") by discriminate.
  rewrite get_insert_eq. reflexivity.
Qed.

(** ** The loops of [predict] *)

(** A property of the accumulator that every iteration keeps holds at the
    end of the loop. *)
Lemma for_each_invariant {A S : Type} (P : S -> Prop) (body : S -> A -> outcome S)
    (l : list A) (acc out : S) :
  (forall acc x acc', P acc -> body acc x = Ok acc' -> P acc') ->
  P acc -> for_each body l acc = Ok out -> P out.
Proof.
  intros Hbody. revert acc. induction l as [|x l IH]; intros acc Hacc.
  - intros [= <-]. exact Hacc.
  - cbn [for_each]. destruct (body acc x) as [acc'|e] eqn:E; [|discriminate].
    cbn [bind]. apply IH. exact (Hbody acc x acc' Hacc E).
Qed.

(** When the loop ends normally, every iteration did. *)
Lemma for_each_ok_each {A S : Type} (body : S -> A -> outcome S)
    (l : list A) (acc out : S) (x : A) :
  for_each body l acc = Ok out -> In x l ->
  exists a a', body a x = Ok a'.
Proof.
  revert acc. induction l as [|y l IH]; intros acc Hloop; [intros []|].
  cbn [for_each] in Hloop.
  destruct (body acc y) as [acc'|e] eqn:E; [|discriminate].
  intros [<-|Hin]; [exists acc, acc'; exact E|].
  exact (IH acc' Hloop Hin).
Qed.

(** A loop whose iterations only append to the accumulator can be run on
    the empty accumulator. *)
Lemma for_each_appends {A B : Type} (body : list B -> A -> outcome (list B))
    (l : list A) (acc : list B) :
  (forall acc x, body acc x = (do new <- body [] x; Ok (acc ++ new))) ->
  for_each body l acc = (do new <- for_each body l []; Ok (acc ++ new)).
Proof.
  intros Hbody. revert acc. induction l as [|x l IH]; intros acc.
  - cbn. rewrite app_nil_r. reflexivity.
  - cbn [for_each]. rewrite (Hbody acc x).
    destruct (body [] x) as [new|e]; [|reflexivity]. cbn [bind].
    rewrite (IH (acc ++ new)), (IH new).
    destruct (for_each body l []) as [rest|e]; [|reflexivity].
    cbn [bind]. rewrite app_assoc. reflexivity.
Qed.

Lemma mask_instance_appends (cv2 : Cv2) (show_boxes epsilon_factor : value)
    (orig_h orig_w : nat) (result : Result) (shapes : list Shape)
    (item : nat * Mask) :
  mask_instance cv2 show_boxes epsilon_factor orig_h orig_w result shapes item
  = (do new <- mask_instance cv2 show_boxes epsilon_factor orig_h orig_w
                 result [] item;
     Ok (shapes ++ new)).
Proof.
  unfold mask_instance. destruct item as [i mask].
  destruct (box_at (boxes result) i) as [box|e]; [|reflexivity]. cbn [bind].
  destruct (int (cls box)) as [c|e]; [|reflexivity]. cbn [bind].
  destruct (subscript (names result !! c)) as [name|e]; [|reflexivity]. cbn [bind].
  destruct (resample cv2 mask orig_h orig_w) as [mask'|e]; [|reflexivity]. cbn [bind].
  destruct (mask_to_polygon cv2 mask' epsilon_factor) as [pts|e]; [|reflexivity].
  cbn [bind]. destruct (length pts <? 3)%nat; cbn [bind].
  - rewrite app_nil_r. reflexivity.
  - destruct (truthy show_boxes); cbn [app]; rewrite <- ?app_assoc; reflexivity.
Qed.

Lemma box_instance_appends (result : Result) (shapes : list Shape) (box : Box) :
  box_instance result shapes box
  = (do new <- box_instance result [] box; Ok (shapes ++ new)).
Proof.
  unfold box_instance.
  destruct (int (cls box)) as [c|e]; [|reflexivity]. cbn [bind].
  destruct (subscript (names result !! c)) as [name|e]; reflexivity.
Qed.

Lemma result_shapes_appends (cv2 : Cv2) (show_boxes epsilon_factor : value)
    (orig_h orig_w : nat) (shapes : list Shape) (result : Result) :
  result_shapes cv2 show_boxes epsilon_factor orig_h orig_w shapes result
  = (do new <- result_shapes cv2 show_boxes epsilon_factor orig_h orig_w [] result;
     Ok (shapes ++ new)).
Proof.
  unfold result_shapes. destruct (masks result) as [mask_data|].
  - apply for_each_appends. intros acc x. apply mask_instance_appends.
  - destruct (boxes result) as [bs|].
    + apply for_each_appends. intros acc x. apply box_instance_appends.
    + cbn. rewrite app_nil_r. reflexivity.
Qed.

(** X10: the shapes of a call are the shapes of its results, one result
    after the other: when the network returns [results1 ++ results2],
    [predict] returns the shapes it returns for [results1] followed by
    those it returns for [results2], and raises when either part does.
    What was emitted earlier never changes what is emitted later. *)
Theorem predict_concatenates_results (cv2 : Cv2) (self : Plugin) (image : Image)
    (call_params : gmap string value) (results1 results2 : list Result) :
  predict cv2 (set_model self (Some (constant_model (results1 ++ results2))))
    image call_params
  = (do r1 <- predict cv2 (set_model self (Some (constant_model results1)))
                image call_params;
     do r2 <- predict cv2 (set_model self (Some (constant_model results2)))
                image call_params;
     Ok {| shapes := shapes r1 ++ shapes r2; description := "" |}).
Proof.
  rewrite !(predict_with_model cv2 (set_model self (Some (constant_model _)))
              (constant_model _) image call_params eq_refl).
  cbn [constant_model call bind set_model params].
  rewrite for_each_app.
  destruct (for_each _ results1 []) as [shapes1|e]; [|reflexivity]. cbn [bind].
  rewrite for_each_appends by (intros acc x; apply result_shapes_appends).
  destruct (for_each _ results2 []) as [shapes2|e]; reflexivity.
Qed.

(** The rectangles of a list of boxes whose class ids all have a name. *)
Lemma box_loop_rectangles (result : Result) (bs : list Box) (acc : list Shape) :
  (forall b, In b bs ->
     exists c name, int (cls b) = Ok c /\ names result !! c = Some name) ->
  exists rects,
    for_each (box_instance result) bs acc = Ok (acc ++ rects)
    /\ Forall2
         (fun b s =>
            shape_type s = "rectangle"
            /\ points s = rectangle_points (xyxy b)
            /\ score s = conf b
            /\ exists c, int (cls b) = Ok c /\ names result !! c = Some (label s))
         bs rects.
Proof.
  revert acc. induction bs as [|b bs IH]; intros acc Hnames.
  - exists []. split; [cbn; rewrite app_nil_r; reflexivity | constructor].
  - destruct (Hnames b (or_introl eq_refl)) as (c & name & Hc & Hname).
    destruct (IH (acc ++ [bbox_shape name b (conf b)])
                 (fun b' Hb' => Hnames b' (or_intror Hb'))) as (rects & Hloop & Hall).
    exists (bbox_shape name b (conf b) :: rects). split.
    + cbn [for_each]. unfold box_instance at 1. rewrite Hc. cbn [bind].
      rewrite Hname. cbn [bind subscript]. rewrite Hloop, <- app_assoc. reflexivity.
    + constructor; [|exact Hall].
      repeat split. exists c. split; [exact Hc | exact Hname].
Qed.

(** X11: for a result without masks, [predict] returns exactly one
    rectangle per box, in the order of the boxes, each with the four
    corners, the score and the class name of its box, whatever
    [show_boxes] and [epsilon_factor] are; this needs every class id to be
    a number that has a name. *)
Theorem predict_box_only (cv2 : Cv2) (self : Plugin) (m : Model) (image : Image)
    (call_params : gmap string value) (result : Result) (bs : list Box) :
  model self = Some m ->
  call m image
    (Some (get call_params "conf_threshold"
             (get (params self) "conf_threshold" (VNum 0.25))))
    (Some (get call_params "iou_threshold"
             (get (params self) "iou_threshold" (VNum 0.70))))
  = Ok [result] ->
  masks result = None ->
  boxes result = Some bs ->
  (forall b, In b bs ->
     exists c name, int (cls b) = Ok c /\ names result !! c = Some name) ->
  exists rects,
    predict cv2 self image call_params
    = Ok {| shapes := rects; description := "" |}
    /\ Forall2
         (fun b s =>
            shape_type s = "rectangle"
            /\ points s = rectangle_points (xyxy b)
            /\ score s = conf b
            /\ exists c, int (cls b) = Ok c /\ names result !! c = Some (label s))
         bs rects.
Proof.
  intros Hm Hcall Hmasks Hboxes Hnames.
  destruct (box_loop_rectangles result bs [] Hnames) as (rects & Hloop & Hall).
  exists rects. split; [|exact Hall].
  rewrite (predict_with_model cv2 self m image call_params Hm), Hcall.
  cbn [bind for_each]. unfold result_shapes. rewrite Hmasks, Hboxes, Hloop.
  reflexivity.
Qed.

Lemma predict_box_only_witness :
  exists rects,
    predict standin_cv2 (sample_configured [box_only_result]) sample_image ∅
    = Ok {| shapes := rects; description := "" |}
    /\ Forall2
         (fun b s =>
            shape_type s = "rectangle"
            /\ points s = rectangle_points (xyxy b)
            /\ score s = conf b
            /\ exists c, int (cls b) = Ok c /\ sample_names !! c = Some (label s))
         [sample_box; nan_conf_box] rects.
Proof.
  apply (predict_box_only standin_cv2 (sample_configured [box_only_result])
           (constant_model [box_only_result]) sample_image ∅ box_only_result
           [sample_box; nan_conf_box]);
    [reflexivity | reflexivity | reflexivity | reflexivity |].
  intros b [<-|[<-|[]]]; exists 0, "person"; split; reflexivity.
Defined.

(** ** What every returned shape looks like *)

Lemma shape_ok_bbox (name : string) (box : Box) (score : float) :
  shape_ok (bbox_shape name box score) = true.
Proof.
  unfold shape_ok, bbox_shape, rectangle_points. cbn [shape_type points].
  destruct (xyxy box) as [[[x0 y0] x1] y1]. reflexivity.
Qed.

Lemma close_ring_length (l : list (float * float)) :
  (length l <= length (close_ring l))%nat.
Proof.
  unfold close_ring. destruct l as [|p0 l]; [reflexivity|].
  destruct (negb _); [rewrite length_app; lia | reflexivity].
Qed.

(** Closing the points of a contour gives a ring: first point = last. *)
Lemma close_ring_ends (pts : list Point) :
  match close_ring (float_points pts) with
  | [] => pts = []
  | p0 :: _ =>
      point_eqb p0 (List.last (close_ring (float_points pts)) p0) = true
  end.
Proof.
  destruct pts as [|[x y] pts]; [reflexivity|].
  unfold float_points. cbn [map fst snd].
  set (p0 := (Fin x, Fin y)). set (l := map _ pts).
  destruct (point_eqb p0 (List.last (p0 :: l) p0)) eqn:Heq.
  - rewrite (close_ring_closed p0 l Heq). exact Heq.
  - assert (Hopen : close_ring (p0 :: l) = p0 :: (l ++ [p0])).
    { unfold close_ring. rewrite Heq. reflexivity. }
    rewrite Hopen. change (p0 :: (l ++ [p0])) with ((p0 :: l) ++ [p0]).
    cbn [app]. change (p0 :: (l ++ [p0])) with ((p0 :: l) ++ [p0]).
    rewrite last_last. apply point_eqb_refl_fin.
Qed.

Lemma shape_ok_mask (name : string) (pts : list Point) (score : float) :
  (3 <= length pts)%nat ->
  shape_ok (mask_shape name (close_ring (float_points pts)) score) = true.
Proof.
  intros Hlen. unfold shape_ok, mask_shape. cbn [shape_type points String.eqb].
  pose proof (close_ring_length (float_points pts)) as Hl.
  unfold float_points in Hl at 1. rewrite length_map in Hl.
  pose proof (close_ring_ends pts) as Hends.
  destruct (close_ring (float_points pts)) as [|p0 l] eqn:E.
  - cbn in Hl. lia.
  - rewrite Hends, andb_true_r. apply Nat.leb_le. lia.
Qed.

Lemma mask_instance_ok (cv2 : Cv2) (show_boxes epsilon_factor : value)
    (orig_h orig_w : nat) (result : Result) (shapes out : list Shape)
    (item : nat * Mask) :
  forallb shape_ok shapes = true ->
  mask_instance cv2 show_boxes epsilon_factor orig_h orig_w result shapes item
  = Ok out ->
  forallb shape_ok out = true.
Proof.
  intros Hok. unfold mask_instance. destruct item as [i mask].
  destruct (box_at (boxes result) i) as [box|e]; [|discriminate]. cbn [bind].
  destruct (int (cls box)) as [c|e]; [|discriminate]. cbn [bind].
  destruct (subscript (names result !! c)) as [name|e]; [|discriminate]. cbn [bind].
  destruct (resample cv2 mask orig_h orig_w) as [mask'|e]; [|discriminate]. cbn [bind].
  destruct (mask_to_polygon cv2 mask' epsilon_factor) as [pts|e]; [|discriminate].
  cbn [bind]. destruct (length pts <? 3)%nat eqn:Hlen.
  - intros [= <-]. exact Hok.
  - apply Nat.ltb_ge in Hlen. intros [= <-].
    rewrite forallb_app. cbn [forallb]. rewrite (shape_ok_mask _ _ _ Hlen).
    destruct (truthy show_boxes); [rewrite forallb_app; cbn [forallb]|];
      rewrite ?shape_ok_bbox, Hok; reflexivity.
Qed.

Lemma box_instance_ok (result : Result) (shapes out : list Shape) (box : Box) :
  forallb shape_ok shapes = true ->
  box_instance result shapes box = Ok out ->
  forallb shape_ok out = true.
Proof.
  intros Hok. unfold box_instance.
  destruct (int (cls box)) as [c|e]; [|discriminate]. cbn [bind].
  destruct (subscript (names result !! c)) as [name|e]; [|discriminate].
  cbn [bind]. intros [= <-].
  rewrite forallb_app. cbn [forallb]. rewrite shape_ok_bbox, Hok. reflexivity.
Qed.

(** X12: every shape [predict] returns is well formed.  It is a
    ["rectangle"] with exactly four points, or a ["polygon"] with at least
    three points whose first and last points are equal (a closed ring);
    no other shape type is produced. *)
Theorem predict_shapes_well_formed (cv2 : Cv2) (self : Plugin) (image : Image)
    (call_params : gmap string value) (r : Prediction) :
  predict cv2 self image call_params = Ok r ->
  forallb shape_ok (shapes r) = true.
Proof.
  unfold predict. destruct (shape2 image) as [orig_h orig_w].
  destruct (getattr_model self) as [m|e]; [|discriminate]. cbn [bind].
  destruct (call m image _ _) as [results|e]; [|discriminate]. cbn [bind].
  destruct (for_each _ results []) as [out|e] eqn:Hloop; [|discriminate].
  cbn [bind]. intros [= <-]. cbn [shapes].
  refine (for_each_invariant (fun l => forallb shape_ok l = true)
            _ results [] out _ eq_refl Hloop).
  intros acc result acc' Hacc. unfold result_shapes.
  destruct (masks result) as [mask_data|].
  - intros Hmasks.
    apply (for_each_invariant (fun l => forallb shape_ok l = true)
             _ _ acc acc' (fun a item a' => mask_instance_ok _ _ _ _ _ _ a a' item)
             Hacc Hmasks).
  - destruct (boxes result) as [bs|]; [|intros [= <-]; exact Hacc].
    intros Hboxes.
    apply (for_each_invariant (fun l => forallb shape_ok l = true)
             _ _ acc acc' (fun a box a' => box_instance_ok _ a a' box)
             Hacc Hboxes).
Qed.

Lemma predict_shapes_well_formed_witness :
  predict standin_cv2 (sample_configured [sample_result; box_only_result])
    sample_image ∅
  = Ok {| shapes := [bbox_shape "person" sample_box (Fin (9 # 10));
                     sample_polygon;
                     bbox_shape "person" sample_box (Fin (9 # 10));
                     bbox_shape "person" nan_conf_box NaN];
          description := "" |}
  /\ forallb shape_ok
       [bbox_shape "person" sample_box (Fin (9 # 10));
        sample_polygon;
        bbox_shape "person" sample_box (Fin (9 # 10));
        bbox_shape "person" nan_conf_box NaN] = true.
Proof.
  assert (H : predict standin_cv2
                (sample_configured [sample_result; box_only_result])
                sample_image ∅
              = Ok {| shapes := [bbox_shape "person" sample_box (Fin (9 # 10));
                                 sample_polygon;
                                 bbox_shape "person" sample_box (Fin (9 # 10));
                                 bbox_shape "person" nan_conf_box NaN];
                      description := "" |})
    by (vm_compute; reflexivity).
  split; [exact H|].
  exact (predict_shapes_well_formed standin_cv2 _ sample_image ∅ _ H).
Defined.

(** ** Masks and boxes go in pairs *)

Lemma mask_loop_needs_boxes (cv2 : Cv2) (show_boxes epsilon_factor : value)
    (orig_h orig_w : nat) (result : Result) (mask_data : list Mask)
    (start : nat) (acc out : list Shape) :
  for_each (mask_instance cv2 show_boxes epsilon_factor orig_h orig_w result)
    (combine (seq start (length mask_data)) mask_data) acc = Ok out ->
  mask_data <> [] ->
  exists bs, boxes result = Some bs
             /\ (start + length mask_data <= length bs)%nat.
Proof.
  revert start acc. induction mask_data as [|mask rest IH]; intros start acc Hloop Hne;
    [congruence|].
  cbn [length seq combine for_each] in Hloop.
  destruct (mask_instance _ _ _ _ _ _ acc (start, mask)) as [acc'|e] eqn:E;
    [|discriminate].
  cbn [bind] in Hloop.
  assert (Hbox : exists bs, boxes result = Some bs /\ (start < length bs)%nat).
  { unfold mask_instance, box_at in E.
    destruct (boxes result) as [bs|]; [|discriminate].
    destruct (bs !! start) as [b|] eqn:Hb; [|discriminate].
    exists bs. split; [reflexivity|]. exact (lookup_lt_Some _ _ _ Hb). }
  destruct rest as [|mask2 rest].
  - destruct Hbox as (bs & Hbs & Hlt). exists bs. split; [exact Hbs|].
    cbn [length]. lia.
  - destruct (IH (S start) acc' Hloop ltac:(discriminate)) as (bs & Hbs & Hle).
    exists bs. split; [exact Hbs|]. cbn [length] in *. lia.
Qed.

(** X13: when a result carries masks, [predict] takes the class, score
    and box of mask [i] from box [i].  So if [predict] returns, every
    result with at least one mask has boxes, and at least as many boxes as
    masks; a mask without its box makes the whole call raise. *)
Theorem predict_masks_need_boxes (cv2 : Cv2) (self : Plugin) (m : Model)
    (image : Image) (call_params : gmap string value)
    (results : list Result) (r : Prediction) :
  model self = Some m ->
  call m image
    (Some (get call_params "conf_threshold"
             (get (params self) "conf_threshold" (VNum 0.25))))
    (Some (get call_params "iou_threshold"
             (get (params self) "iou_threshold" (VNum 0.70))))
  = Ok results ->
  predict cv2 self image call_params = Ok r ->
  forall result mask_data,
    In result results ->
    masks result = Some mask_data ->
    mask_data <> [] ->
    exists bs, boxes result = Some bs /\ (length mask_data <= length bs)%nat.
Proof.
  intros Hm Hcall Hpredict result mask_data Hin Hmasks Hne.
  rewrite (predict_with_model cv2 self m image call_params Hm), Hcall in Hpredict.
  cbn [bind] in Hpredict.
  destruct (for_each _ results []) as [out|e] eqn:Hloop; [|discriminate].
  destruct (for_each_ok_each _ results [] out result Hloop Hin) as (a & a' & Hres).
  unfold result_shapes in Hres. rewrite Hmasks in Hres.
  destruct (mask_loop_needs_boxes _ _ _ _ _ _ _ 0 a a' Hres Hne) as (bs & Hbs & Hle).
  exists bs. split; [exact Hbs | exact Hle].
Qed.

Lemma predict_masks_need_boxes_witness :
  exists bs, boxes sample_result = Some bs /\ (length [sample_mask] <= length bs)%nat.
Proof.
  apply (predict_masks_need_boxes standin_cv2 (sample_loaded [sample_result])
           (constant_model [sample_result]) sample_image ∅ [sample_result]
           {| shapes := [sample_polygon]; description := "" |}
           eq_refl eq_refl);
    [vm_compute; reflexivity | left; reflexivity | reflexivity | discriminate].
Defined.

(** A result with two masks and a single box: the second mask has no box
    and [predict] raises [IndexError]. *)
Example predict_mask_without_box :
  predict standin_cv2
    (sample_loaded [ {| boxes := Some [sample_box];
                        masks := Some [sample_mask; sample_mask];
                        names := sample_names |} ])
    sample_image ∅
  = Err IndexError.
Proof. vm_compute. reflexivity. Qed.

(** ** Which contour becomes the polygon *)

(** [max_by] returns the first element with the greatest key. *)
Lemma max_by_first_greatest {A : Type} (key : A -> Q) (xs : list A) (best : A) :
  exists before after,
    best :: xs = before ++ max_by key best xs :: after
    /\ (forall y, In y before -> (key y < key (max_by key best xs))%Q)
    /\ (forall y, In y after -> (key y <= key (max_by key best xs))%Q).
Proof.
  revert best. induction xs as [|x xs IH]; intros best.
  - exists [], []. cbn. repeat split; intros y [].
  - cbn [max_by]. destruct (Qltb (key best) (key x)) eqn:E.
    + apply Qltb_lt in E.
      destruct (IH x) as (before & after & Hsplit & Hbefore & Hafter).
      exists (best :: before), after. split; [cbn; rewrite Hsplit; reflexivity|].
      split; [|exact Hafter].
      intros y [<-|Hy]; [|exact (Hbefore y Hy)].
      destruct before as [|b before].
      * cbn in Hsplit. injection Hsplit as Hx _. rewrite <- Hx. exact E.
      * cbn in Hsplit. injection Hsplit as Hx _.
        apply Qlt_trans with (key x); [exact E|].
        apply Hbefore. left. symmetry. exact Hx.
    + apply Qltb_ge in E.
      destruct (IH best) as (before & after & Hsplit & Hbefore & Hafter).
      destruct before as [|b before].
      * cbn in Hsplit. injection Hsplit as Hbest Hxs.
        exists [], (x :: after).
        split; [cbn; rewrite <- Hbest; do 2 f_equal; exact Hxs|].
        split; [intros y []|].
        intros y [<-|Hy]; [rewrite <- Hbest; exact E | exact (Hafter y Hy)].
      * cbn in Hsplit. injection Hsplit as Hbest Hxs.
        exists (best :: x :: before), after.
        split; [cbn; do 2 f_equal; exact Hxs|].
        split; [|exact Hafter].
        assert (Hb : (key best < key (max_by key best xs))%Q).
        { apply Hbefore. left. symmetry. exact Hbest. }
        intros y [<-|[<-|Hy]].
        -- exact Hb.
        -- apply Qle_lt_trans with (key best); assumption.
        -- apply Hbefore. right. exact Hy.
Qed.

(** X14: of the contours OpenCV finds, [mask_to_polygon] uses one only,
    the first of those with the greatest area: every contour before it is
    strictly smaller, none after it is larger.  The outcome is that of
    lines 27-29 on this contour: its points as they are when
    [epsilon_factor] is a number that is not positive, and otherwise what
    [cv2.approxPolyDP] gives for it with the tolerance
    [epsilon_factor * arcLength], the simplified points or the exception. *)
Theorem mask_to_polygon_largest_contour (cv2 : Cv2) (mask : Mask)
    (epsilon_factor : value) (contours : list Contour) :
  findContours cv2 (to_mask_uint8 mask) = contours ->
  contours <> [] ->
  exists before c after,
    contours = before ++ c :: after
    /\ (forall c', In c' before -> (contourArea cv2 c' < contourArea cv2 c)%Q)
    /\ (forall c', In c' after -> (contourArea cv2 c' <= contourArea cv2 c)%Q)
    /\ mask_to_polygon cv2 mask epsilon_factor
       = (do contour <- approx_contour cv2 c epsilon_factor;
          Ok (to_points contour))
    /\ (forall e, to_number epsilon_factor = Ok e -> (e <= 0)%Q ->
          mask_to_polygon cv2 mask epsilon_factor = Ok (to_points c))
    /\ (forall e epsilon,
          to_number epsilon_factor = Ok e -> (0 < e)%Q ->
          times_float epsilon_factor (arcLength cv2 c) = Ok epsilon ->
          mask_to_polygon cv2 mask epsilon_factor
          = (do contour <- approxPolyDP cv2 c epsilon; Ok (to_points contour))).
Proof.
  intros Hfind Hne. destruct contours as [|c0 cs]; [congruence|].
  destruct (max_by_first_greatest (contourArea cv2) cs c0)
    as (before & after & Hsplit & Hbefore & Hafter).
  exists before, (max_by (contourArea cv2) c0 cs), after.
  split; [exact Hsplit|]. split; [exact Hbefore|]. split; [exact Hafter|].
  unfold mask_to_polygon. rewrite Hfind.
  split; [reflexivity|]. split.
  - intros e He Hle. rewrite (approx_contour_nonpositive _ _ _ e He Hle).
    reflexivity.
  - intros e epsilon He Hpos Htimes. unfold approx_contour.
    rewrite (gt_zero_positive _ e He Hpos). cbn [bind]. rewrite Htimes.
    reflexivity.
Qed.

Lemma mask_to_polygon_largest_contour_witness :
  exists before c after,
    sample_contours = before ++ c :: after
    /\ (forall c', In c' before ->
          (standin_contourArea c' < standin_contourArea c)%Q)
    /\ (forall c', In c' after ->
          (standin_contourArea c' <= standin_contourArea c)%Q)
    /\ mask_to_polygon
         {| findContours := fun _ => sample_contours;
            contourArea := standin_contourArea;
            arcLength := standin_arcLength;
            approxPolyDP := standin_approxPolyDP;
            resize := standin_resize |}
         sample_mask (VInt 0)
       = (do contour <-
            approx_contour
              {| findContours := fun _ => sample_contours;
                 contourArea := standin_contourArea;
                 arcLength := standin_arcLength;
                 approxPolyDP := standin_approxPolyDP;
                 resize := standin_resize |}
              c (VInt 0);
          Ok (to_points contour))
    /\ (forall e, to_number (VInt 0) = Ok e -> (e <= 0)%Q ->
          mask_to_polygon
            {| findContours := fun _ => sample_contours;
               contourArea := standin_contourArea;
               arcLength := standin_arcLength;
               approxPolyDP := standin_approxPolyDP;
               resize := standin_resize |}
            sample_mask (VInt 0)
          = Ok (to_points c))
    /\ (forall e epsilon,
          to_number (VInt 0) = Ok e -> (0 < e)%Q ->
          times_float (VInt 0) (standin_arcLength c) = Ok epsilon ->
          mask_to_polygon
            {| findContours := fun _ => sample_contours;
               contourArea := standin_contourArea;
               arcLength := standin_arcLength;
               approxPolyDP := standin_approxPolyDP;
               resize := standin_resize |}
            sample_mask (VInt 0)
          = (do contour <- standin_approxPolyDP c epsilon;
             Ok (to_points contour))).
Proof.
  apply (mask_to_polygon_largest_contour
           {| findContours := fun _ => sample_contours;
              contourArea := standin_contourArea;
              arcLength := standin_arcLength;
              approxPolyDP := standin_approxPolyDP;
              resize := standin_resize |}
           sample_mask (VInt 0) sample_contours);
    [reflexivity | discriminate].
Defined.

(** With areas 1, 4 and 4 the second contour is the one returned. *)
Example mask_to_polygon_first_of_equal_areas :
  mask_to_polygon
    {| findContours := fun _ => sample_contours;
       contourArea := standin_contourArea;
       arcLength := standin_arcLength;
       approxPolyDP := standin_approxPolyDP;
       resize := standin_resize |}
    sample_mask (VNum 0)
  = Ok [(5, 5); (5, 7); (7, 7); (7, 5)]%Q.
Proof. vm_compute. reflexivity. Qed.

(** ** When [mask_to_polygon] raises *)

(** The ints that have no float: 2^1024 - 2^970, half way between the
    greatest binary64 number and 2^1024, and beyond. *)
Lemma float_of_int_overflow (z : Z) (e : exn) :
  float_of_int z = Err e <-> e = OverflowError /\ 2 ^ 1024 - 2 ^ 970 <= Z.abs z.
Proof.
  unfold float_of_int.
  set (a := Z.abs z). assert (Ha : 0 <= a) by apply Z.abs_nonneg.
  set (shift := Z.max 0 (Z.log2 a + 1 - 53)).
  assert (Hshift : 0 <= shift) by (subst shift; lia).
  rewrite Z.shiftr_div_pow2 by exact Hshift.
  set (q := a / 2 ^ shift).
  rewrite !(Z.shiftl_mul_pow2 q shift) by exact Hshift.
  set (r := a - q * 2 ^ shift).
  set (up := (0 <? shift) && ((Z.shiftl 1 (shift - 1) <? r)
                              || ((r =? Z.shiftl 1 (shift - 1)) && Z.odd q))).
  set (q' := if up then q + 1 else q).
  rewrite !(Z.shiftl_mul_pow2 q' shift) by exact Hshift.
  set (T := 2 ^ 970).
  assert (HT : 0 < T) by (subst T; apply Z.pow_pos_nonneg; lia).
  assert (H1024 : 2 ^ 1024 = 2 ^ 54 * T).
  { subst T. rewrite <- Z.pow_add_r by lia. reflexivity. }
  assert (H54 : 2 ^ 54 = 18014398509481984) by reflexivity.
  assert (Hm : 2 ^ 1024 <= q' * 2 ^ shift <-> 2 ^ 1024 - T <= a).
  { rewrite H1024, H54.
    assert (HS : 0 < 2 ^ shift) by (apply Z.pow_pos_nonneg; lia).
    assert (Hq : q * 2 ^ shift <= a < (q + 1) * 2 ^ shift).
    { subst q. pose proof (Z.mul_div_le a (2 ^ shift) HS).
      pose proof (Z.mul_succ_div_gt a (2 ^ shift) HS). lia. }
    destruct (Z_lt_le_dec a (2 ^ 53)) as [Hsmall|Hbig].
    - (* exact conversion *)
      assert (Hs0 : shift = 0).
      { subst shift. destruct (Z.eq_dec a 0) as [->|Hne]; [reflexivity|].
        assert (Z.log2 a < 53) by (apply Z.log2_lt_pow2; lia). lia. }
      assert (Hup : up = false) by (subst up; rewrite Hs0; reflexivity).
      subst q'. rewrite Hup. rewrite Hs0 in *. rewrite Z.pow_0_r in *.
      change (2 ^ 53) with 9007199254740992 in Hsmall.
      assert (1 <= T) by lia. split; nia.
    - assert (Hpos : 0 < a) by (change (2 ^ 53) with 9007199254740992 in Hbig; lia).
      pose proof (Z.log2_spec a Hpos) as [Hlo Hhi].
      assert (HL : 53 <= Z.log2 a) by (apply Z.log2_le_pow2; lia).
      assert (Hs : shift = Z.log2 a - 52) by (subst shift; lia).
      assert (HLS : 2 ^ Z.log2 a = 2 ^ 52 * 2 ^ shift).
      { rewrite <- Z.pow_add_r by lia. f_equal. lia. }
      assert (HLS' : 2 ^ Z.succ (Z.log2 a) = 2 ^ 53 * 2 ^ shift).
      { rewrite <- Z.pow_add_r by lia. f_equal. lia. }
      rewrite HLS in Hlo. rewrite HLS' in Hhi.
      change (2 ^ 52) with 4503599627370496 in Hlo.
      change (2 ^ 53) with 9007199254740992 in Hhi.
      assert (Hq1 : 4503599627370496 <= q < 9007199254740992) by nia.
      assert (Hq' : q <= q' <= q + 1) by (subst q'; destruct up; lia).
      destruct (Z_lt_le_dec (Z.log2 a) 1023) as [Hlt|Hge].
      + (* below the range *)
        assert (2 ^ shift <= T).
        { subst T. apply Z.pow_le_mono_r; lia. }
        split; nia.
      + destruct (Z_lt_le_dec 1023 (Z.log2 a)) as [Hgt|Hle'].
        * assert (4 * T <= 2 ^ shift).
          { subst T. change 4 with (2 ^ 2). rewrite <- Z.pow_add_r by lia.
            apply Z.pow_le_mono_r; lia. }
          split; nia.
        * assert (HL1023 : Z.log2 a = 1023) by lia.
          assert (Hs971 : shift = 971) by lia.
          assert (HS2 : 2 ^ shift = 2 * T).
          { rewrite Hs971. subst T. change 2 with (2 ^ 1) at 2.
            rewrite <- Z.pow_add_r by lia. reflexivity. }
          assert (Hhalf : Z.shiftl 1 (shift - 1) = T).
          { rewrite Hs971. rewrite Z.shiftl_mul_pow2 by lia. subst T.
            rewrite Z.mul_1_l. reflexivity. }
          assert (Hr : r = a - q * (2 * T)) by (subst r; rewrite HS2; reflexivity).
          assert (Hupv : up = (T <? r) || ((r =? T) && Z.odd q)).
          { subst up. rewrite Hhalf, Hs971. reflexivity. }
          rewrite HS2 in *.
          destruct (Z.eq_dec q 9007199254740991) as [Hqmax|Hqne].
          -- assert (Hodd : Z.odd q = true) by (rewrite Hqmax; reflexivity).
             subst q'. rewrite Hupv, Hodd, andb_true_r.
             destruct (Z.ltb_spec T r) as [Htr|Htr]; cbn [orb].
             ++ split; nia.
             ++ destruct (Z.eqb_spec r T) as [Hrt|Hrt]; split; nia.
          -- split; nia.
  }
  destruct (Z.leb_spec (2 ^ 1024) (q' * 2 ^ shift)) as [Hle|Hlt].
  - split; [intros [= <-]; split; [reflexivity | apply Hm, Hle]|].
    intros [-> _]. reflexivity.
  - split; [discriminate|]. intros [_ H]. apply Hm in H. lia.
Qed.

Lemma gt_zero_raises (v : value) (e : exn) :
  gt_zero v = Err e <-> e = TypeError /\ (v = VNone \/ exists s, v = VStr s).
Proof.
  unfold gt_zero. destruct v as [|b|z|q|s]; cbn [to_number bind].
  - split; [intros [= <-]; split; [reflexivity | left; reflexivity]|].
    intros [-> _]. reflexivity.
  - split; [discriminate|]. intros (_ & [H|[s H]]); discriminate.
  - split; [discriminate|]. intros (_ & [H|[s H]]); discriminate.
  - split; [discriminate|]. intros (_ & [H|[s H]]); discriminate.
  - split; [intros [= <-]; split; [reflexivity | right; exists s; reflexivity]|].
    intros [-> _]. reflexivity.
Qed.

Lemma times_float_raises (v : value) (x : Q) (e : exn) :
  gt_zero v = Ok true ->
  times_float v x = Err e
  <-> e = OverflowError /\ exists z, v = VInt z /\ 2 ^ 1024 - 2 ^ 970 <= z.
Proof.
  intros Hpos. destruct v as [|b|z|q|s]; try discriminate; cbn [times_float].
  - split; [discriminate|]. intros (_ & z & H & _). discriminate.
  - assert (Hz : 0 < z).
    { unfold gt_zero in Hpos. cbn in Hpos. injection Hpos as Hpos.
      apply Qltb_lt in Hpos. change 0%Q with (inject_Z 0) in Hpos.
      rewrite <- Zlt_Qlt in Hpos. exact Hpos. }
    destruct (float_of_int z) as [f|e'] eqn:E; cbn [bind].
    + split; [discriminate|]. intros (-> & z' & [= <-] & Hbig).
      assert (float_of_int z = Err OverflowError).
      { apply float_of_int_overflow. split; [reflexivity|].
        rewrite Z.abs_eq by lia. exact Hbig. }
      congruence.
    + apply float_of_int_overflow in E as [-> Hbig].
      rewrite Z.abs_eq in Hbig by lia.
      split; [intros [= <-]; split; [reflexivity | exists z; split; [reflexivity | exact Hbig]]|].
      intros [-> _]. reflexivity.
  - split; [discriminate|]. intros (_ & z & H & _). discriminate.
Qed.

(** X15: [mask_to_polygon] raises only when the mask has a contour, and
    then in three situations: [TypeError] when [epsilon_factor] is [None]
    or a string; [OverflowError] when it is an [int] of 2^1024 - 2^970 or
    more, too large for the float product of line 28; and, for any other
    positive number, whatever [cv2.approxPolyDP] raises for the largest
    contour and the tolerance [epsilon_factor * arcLength].  A mask
    without contour, and a number that is not positive, never raise. *)
Theorem mask_to_polygon_raises_iff (cv2 : Cv2) (mask : Mask)
    (epsilon_factor : value) (e : exn) :
  mask_to_polygon cv2 mask epsilon_factor = Err e
  <-> exists c0 cs,
        findContours cv2 (to_mask_uint8 mask) = c0 :: cs
        /\ ((e = TypeError
             /\ (epsilon_factor = VNone \/ exists s, epsilon_factor = VStr s))
            \/ (e = OverflowError
                /\ exists z, epsilon_factor = VInt z /\ 2 ^ 1024 - 2 ^ 970 <= z)
            \/ (exists epsilon,
                  gt_zero epsilon_factor = Ok true
                  /\ times_float epsilon_factor
                       (arcLength cv2 (max_by (contourArea cv2) c0 cs))
                     = Ok epsilon
                  /\ approxPolyDP cv2 (max_by (contourArea cv2) c0 cs) epsilon
                     = Err e)).
Proof.
  unfold mask_to_polygon.
  destruct (findContours cv2 (to_mask_uint8 mask)) as [|c0 cs].
  - split; [discriminate | intros (c0 & cs & H & _); discriminate].
  - set (c := max_by (contourArea cv2) c0 cs). unfold approx_contour.
    destruct (gt_zero epsilon_factor) as [[|]|e0] eqn:Hgt; cbn [bind].
    + destruct (times_float epsilon_factor (arcLength cv2 c)) as [epsilon|e1] eqn:Ht;
        cbn [bind].
      * destruct (approxPolyDP cv2 c epsilon) as [c'|e2] eqn:Ha; cbn [bind].
        -- split; [discriminate|].
           intros (c0' & cs' & [= <- <-] & [(-> & Hill)|[(-> & Hbig)|(eps' & _ & Ht' & Ha')]]).
           ++ assert (gt_zero epsilon_factor = Err TypeError)
                by (apply gt_zero_raises; split; [reflexivity | exact Hill]).
              congruence.
           ++ assert (times_float epsilon_factor (arcLength cv2 c) = Err OverflowError)
                by (apply (times_float_raises _ _ _ Hgt); split; [reflexivity | exact Hbig]).
              congruence.
           ++ fold c in Ht', Ha'. congruence.
        -- split.
           ++ intros [= <-]. exists c0, cs. split; [reflexivity|].
              right. right. exists epsilon. repeat split; assumption.
           ++ intros (c0' & cs' & [= <- <-] & [(-> & Hill)|[(-> & Hbig)|(eps' & _ & Ht' & Ha')]]).
              ** assert (gt_zero epsilon_factor = Err TypeError)
                   by (apply gt_zero_raises; split; [reflexivity | exact Hill]).
                 congruence.
              ** assert (times_float epsilon_factor (arcLength cv2 c) = Err OverflowError)
                   by (apply (times_float_raises _ _ _ Hgt); split; [reflexivity | exact Hbig]).
                 congruence.
              ** fold c in Ht', Ha'. congruence.
      * pose proof (proj1 (times_float_raises _ _ _ Hgt) Ht) as [-> Hbig].
        split.
        -- intros [= <-]. exists c0, cs. split; [reflexivity|].
           right. left. split; [reflexivity | exact Hbig].
        -- intros (c0' & cs' & [= <- <-] & [(-> & Hill)|[(-> & _)|(eps' & _ & Ht' & _)]]).
           ++ assert (gt_zero epsilon_factor = Err TypeError)
                by (apply gt_zero_raises; split; [reflexivity | exact Hill]).
              congruence.
           ++ reflexivity.
           ++ fold c in Ht'. congruence.
    + split; [discriminate|].
      intros (c0' & cs' & _ & [(-> & Hill)|[(-> & z & -> & Hbig)|(eps' & Hgt' & _)]]).
      * assert (gt_zero epsilon_factor = Err TypeError)
          by (apply gt_zero_raises; split; [reflexivity | exact Hill]).
        congruence.
      * exfalso. unfold gt_zero in Hgt. cbn in Hgt. injection Hgt as Hgt.
        apply Qltb_ge in Hgt. change 0%Q with (inject_Z 0) in Hgt.
        rewrite <- Zle_Qle in Hgt.
        assert (0 < 2 ^ 1024 - 2 ^ 970) by reflexivity. lia.
      * congruence.
    + apply gt_zero_raises in Hgt as [-> Hill].
      split.
      * intros [= <-]. exists c0, cs. split; [reflexivity|].
        left. split; [reflexivity | exact Hill].
      * intros (c0' & cs' & _ & [(-> & _)|[(-> & z & -> & _)|(eps' & Hgt' & _)]]).
        -- reflexivity.
        -- destruct Hill as [H|[s H]]; discriminate.
        -- destruct Hill as [->|[s ->]]; discriminate.
Qed.

Lemma mask_to_polygon_raises_iff_witness :
  mask_to_polygon standin_cv2 sample_mask VNone = Err TypeError
  /\ mask_to_polygon standin_cv2 sample_mask (VInt (2 ^ 1024 - 2 ^ 970))
     = Err OverflowError
  /\ mask_to_polygon standin_cv2 sample_mask (VInt (2 ^ 1024 - 2 ^ 970 - 1))
     = Err cv2_error
  /\ mask_to_polygon standin_cv2 empty_mask VNone = Ok [].
Proof.
  split; [|split; [|split]].
  - apply (mask_to_polygon_raises_iff standin_cv2 sample_mask VNone TypeError).
    exists [(1, 1); (1, 2); (2, 2); (2, 1)], [].
    split; [vm_compute; reflexivity|]. left. split; [reflexivity | left; reflexivity].
  - apply (mask_to_polygon_raises_iff standin_cv2 sample_mask
             (VInt (2 ^ 1024 - 2 ^ 970)) OverflowError).
    exists [(1, 1); (1, 2); (2, 2); (2, 1)], [].
    split; [vm_compute; reflexivity|]. right. left. split; [reflexivity|].
    exists (2 ^ 1024 - 2 ^ 970). split; [reflexivity | lia].
  - vm_compute. reflexivity.
  - reflexivity.
Defined.

(** ** The 8-bit mask *)

Lemma astype_uint8_range (x : Q) : 0 <= astype_uint8 x < 256.
Proof. unfold astype_uint8. apply Z.mod_pos_bound. lia. Qed.

Lemma astype_uint8_binary (v : Q) :
  (v == 0)%Q \/ (v == 1)%Q ->
  astype_uint8 (v * 255)%Q = if Qeq_bool v 0 then 0 else 255.
Proof.
  intros Hv.
  assert (H01 : (0 <= v)%Q /\ (v <= 1)%Q).
  { destruct Hv as [->| ->]; split; discriminate. }
  destruct (astype_uint8_scaled v (proj1 H01) (proj2 H01)) as [-> _].
  destruct v as [n d]. unfold Qeq in Hv. cbn [Qnum Qden] in *.
  destruct Hv as [Hv|Hv].
  - assert (n = 0) by lia. subst n.
    rewrite (proj2 (Qeq_bool_iff (0 # d) 0)) by reflexivity. reflexivity.
  - assert (n = Z.pos d) by lia. subst n.
    destruct (Qeq_bool (Z.pos d # d) 0) eqn:E.
    + apply Qeq_bool_iff in E. unfold Qeq in E. cbn in E. lia.
    + rewrite Z.mul_comm. apply Z.div_mul. lia.
Qed.

(** X16: the array handed to [findContours] has the shape of the mask and
    all its entries are bytes (0 to 255); for a binary mask (entries 0 or
    1, the masks the network returns at the image's resolution) it is the
    mask with 255 for 1, so foreground and background are kept apart
    exactly. *)
Theorem to_mask_uint8_bytes (mask : Mask) :
  shape2 (to_mask_uint8 mask) = shape2 mask
  /\ Forall (Forall (fun px => 0 <= px < 256)) (to_mask_uint8 mask)
  /\ (Forall (Forall (fun v => (v == 0)%Q \/ (v == 1)%Q)) mask ->
      to_mask_uint8 mask
      = map (map (fun v => if Qeq_bool v 0 then 0 else 255)) mask).
Proof.
  unfold to_mask_uint8. split; [|split].
  - unfold shape2. rewrite length_map. destruct mask as [|row mask]; [reflexivity|].
    cbn [map]. rewrite length_map. reflexivity.
  - apply Forall_map. apply Forall_forall. intros row _.
    apply Forall_map. apply Forall_forall. intros v _. apply astype_uint8_range.
  - intros Hbin. apply map_ext_Forall. eapply Forall_impl; [exact Hbin|].
    intros row Hrow. apply map_ext_Forall. eapply Forall_impl; [exact Hrow|].
    intros v Hv. apply astype_uint8_binary, Hv.
Qed.

Lemma to_mask_uint8_bytes_witness :
  to_mask_uint8 sample_mask
  = map (map (fun v => if Qeq_bool v 0 then 0 else 255)) sample_mask.
Proof.
  apply (to_mask_uint8_bytes sample_mask).
  repeat constructor; first [left; reflexivity | right; reflexivity].
Defined.

(** ** More on the prompt parser *)

Lemma class_chars_nil (separators : list string) :
  class_chars separators = [] <-> Forall (fun s => s = "") separators.
Proof.
  unfold class_chars. induction separators as [|s separators IH].
  - split; [constructor | reflexivity].
  - cbn [map concat]. split.
    + intros H. apply app_eq_nil in H as [Hs Hrest].
      constructor; [destruct s; [reflexivity | discriminate]|].
      apply IH, Hrest.
    + intros H. inversion H as [|? ? Hs Hrest]; subst.
      cbn. apply IH, Hrest.
Qed.

(** X17: [parse_prompts] raises in one situation only: the text is not
    blank and the separator list holds no character at all (it is empty,
    or made of empty strings), so that the character class built from it
    is ["[]"]; what it raises is [re.error].  With the default separators
    it never raises. *)
Theorem parse_prompts_raises_iff (text : string)
    (separators : option (list string)) (deduplicate : bool) (e : exn) :
  parse_prompts text separators deduplicate = Err e
  <-> e = re_error
      /\ strip text <> ""
      /\ exists l, separators = Some l /\ Forall (fun s => s = "") l.
Proof.
  unfold parse_prompts.
  destruct (String.eqb_spec (strip text) "") as [Hblank|Hne].
  - split; [discriminate | intros (_ & H & _); congruence].
  - destruct separators as [l|].
    + destruct (class_chars l) as [|c class] eqn:E; cbn [bind].
      * split.
        -- intros [= <-]. split; [reflexivity|]. split; [exact Hne|].
           exists l. split; [reflexivity | apply class_chars_nil, E].
        -- intros (-> & _ & _). reflexivity.
      * split; [discriminate|].
        intros (_ & _ & l' & [= <-] & Hall).
        apply class_chars_nil in Hall. congruence.
    + cbn. split; [discriminate|]. intros (_ & _ & l & H & _). discriminate.
Qed.

Lemma parse_prompts_raises_iff_witness :
  parse_prompts "a,b" (Some [""; ""]) true = Err re_error.
Proof.
  apply (parse_prompts_raises_iff "a,b" (Some [""; ""]) true re_error).
  split; [reflexivity|]. split; [discriminate|].
  exists [""; ""]. split; [reflexivity | repeat constructor].
Defined.

Lemma re_split_ext (class1 class2 : list ascii) (text : string) :
  (forall c, existsb (Ascii.eqb c) class1 = existsb (Ascii.eqb c) class2) ->
  re_split class1 text = re_split class2 text.
Proof.
  intros H. induction text as [|c text IH]; [reflexivity|].
  cbn [re_split]. rewrite H, IH. reflexivity.
Qed.

Lemma existsb_ascii_In (c : ascii) (class : list ascii) :
  existsb (Ascii.eqb c) class = true <-> In c class.
Proof.
  rewrite existsb_exists. split.
  - intros (x & Hx & E). apply Ascii.eqb_eq in E. subst. exact Hx.
  - intros Hc. exists c. split; [exact Hc | apply Ascii.eqb_refl].
Qed.

(** X18: the separators count only through the set of their characters.
    Each character of each separator cuts on its own (a separator of
    several characters is not matched as a word), and order and
    repetition of the separators are immaterial: two separator lists with
    the same characters give the same outcome. *)
Theorem parse_prompts_separator_characters (text : string)
    (separators1 separators2 : list string) (deduplicate : bool) :
  (forall c, In c (class_chars separators1) <-> In c (class_chars separators2)) ->
  parse_prompts text (Some separators1) deduplicate
  = parse_prompts text (Some separators2) deduplicate.
Proof.
  intros Hsame. unfold parse_prompts.
  destruct (String.eqb (strip text) ""); [reflexivity|].
  assert (Hext : forall c, existsb (Ascii.eqb c) (class_chars separators1)
                           = existsb (Ascii.eqb c) (class_chars separators2)).
  { intros c. apply eq_true_iff_eq. rewrite !existsb_ascii_In. apply Hsame. }
  destruct (class_chars separators1) as [|c1 class1] eqn:E1;
    destruct (class_chars separators2) as [|c2 class2] eqn:E2.
  - reflexivity.
  - exfalso. apply (proj2 (Hsame c2)). left. reflexivity.
  - exfalso. apply (proj1 (Hsame c1)). left. reflexivity.
  - cbn [bind]. rewrite (re_split_ext _ _ text Hext). reflexivity.
Qed.

Lemma parse_prompts_separator_characters_witness :
  parse_prompts "a;b,c;,d" (Some [";,"]) true
  = parse_prompts "a;b,c;,d" (Some [","; ";"; ","]) true.
Proof.
  apply (parse_prompts_separator_characters "a;b,c;,d" [";,"] [","; ";"; ","] true).
  intros c. vm_compute. tauto.
Defined.

Lemma re_split_no_separator (class : list ascii) (p : string) :
  (forall c, In c (list_ascii_of_string p) -> existsb (Ascii.eqb c) class = false) ->
  re_split class p = [p].
Proof.
  induction p as [|a p IH]; intros Hfree; [reflexivity|].
  cbn [re_split]. rewrite (Hfree a (or_introl eq_refl)).
  rewrite IH; [reflexivity|]. intros c Hc. apply Hfree. right. exact Hc.
Qed.

Lemma re_split_app_separator (class : list ascii) (p t : string) (c : ascii) :
  (forall a, In a (list_ascii_of_string p) -> existsb (Ascii.eqb a) class = false) ->
  existsb (Ascii.eqb c) class = true ->
  re_split class (String.append p (String c t)) = p :: re_split class t.
Proof.
  intros Hfree Hc. induction p as [|a p IH].
  - change (re_split class (String c t) = "" :: re_split class t).
    cbn [re_split]. rewrite Hc. reflexivity.
  - change (re_split class (String a (String.append p (String c t)))
            = String a p :: re_split class t).
    cbn [re_split]. rewrite (Hfree a (or_introl eq_refl)).
    rewrite IH; [reflexivity|]. intros b Hb. apply Hfree. right. exact Hb.
Qed.

(** Cutting the joined pieces gives the pieces back. *)
Lemma re_split_of_interleave (class : list ascii) (pieces : list string)
    (joiners : list ascii) :
  Forall (fun p => forall c, In c (list_ascii_of_string p) ->
                             existsb (Ascii.eqb c) class = false) pieces ->
  Forall (fun c => existsb (Ascii.eqb c) class = true) joiners ->
  length pieces = S (length joiners) ->
  re_split class (interleave pieces joiners) = pieces.
Proof.
  intros Hpieces. revert joiners.
  induction Hpieces as [|p ps Hp _ IH]; intros joiners Hjoin Hlen; [discriminate|].
  destruct joiners as [|c cs].
  - destruct ps; [|discriminate]. cbn [interleave].
    apply re_split_no_separator, Hp.
  - inversion Hjoin as [|? ? Hc Hcs]; subst.
    cbn [interleave]. rewrite (re_split_app_separator class p _ c Hp Hc).
    f_equal. apply IH; [exact Hcs|]. cbn [length] in Hlen. lia.
Qed.

Lemma filter_all {A : Type} (f : A -> bool) (l : list A) :
  (forall x, In x l -> f x = true) -> List.filter f l = l.
Proof.
  induction l as [|x l IH]; intros H; [reflexivity|].
  cbn [List.filter]. rewrite (H x (or_introl eq_refl)).
  f_equal. apply IH. intros y Hy. apply H. right. exact Hy.
Qed.

Lemma first_occurrences_distinct (l : list string) :
  List.NoDup l -> first_occurrences l = l.
Proof.
  induction 1 as [|x l Hx _ IH]; [reflexivity|].
  cbn [first_occurrences]. rewrite IH. f_equal. apply filter_all.
  intros y Hy. apply negb_true_iff, String.eqb_neq. intros ->. exact (Hx Hy).
Qed.

(** Parsing prompts that are already clean returns them. *)
Lemma spec_parse_of_interleave (class : list ascii) (out : list string)
    (joiners : list ascii) (deduplicate : bool) :
  (forall p, In p out ->
     p <> "" /\ strip p = p
     /\ forall c, In c (list_ascii_of_string p) -> existsb (Ascii.eqb c) class = false) ->
  (deduplicate = true -> List.NoDup out) ->
  Forall (fun c => existsb (Ascii.eqb c) class = true) joiners ->
  length joiners = pred (length out) ->
  spec_parse class (interleave out joiners) deduplicate = out.
Proof.
  intros Hclean Hdistinct Hjoin Hlen. unfold spec_parse.
  destruct out as [|p out].
  - cbn. destruct deduplicate; reflexivity.
  - rewrite re_split_of_interleave.
    + assert (Hmap : map strip (p :: out) = p :: out).
      { rewrite <- (map_id (p :: out)) at 2. apply map_ext_in.
        intros q Hq. apply (Hclean q Hq). }
      rewrite Hmap, filter_all.
      * destruct deduplicate; [apply first_occurrences_distinct; auto | reflexivity].
      * intros q Hq. apply negb_true_iff, String.eqb_neq. apply (Hclean q Hq).
    + apply Forall_forall. intros q Hq. apply (Hclean q).
      apply list_elem_of_In. exact Hq.
    + exact Hjoin.
    + cbn [length] in *. lia.
Qed.

(** X19: parsing is stable on its own output.  When [parse_prompts]
    returns the prompts [out], joining them with separator characters (one
    between neighbours, any character of the separators) and parsing the
    joined text again, with the same separators and the same
    [deduplicate], returns [out]. *)
Theorem parse_prompts_round_trip (text : string)
    (separators : option (list string)) (deduplicate : bool)
    (out : list string) (joiners : list ascii) :
  let class :=
    class_chars match separators with None => [","; "."] | Some l => l end in
  parse_prompts text separators deduplicate = Ok out ->
  Forall (fun c => In c class) joiners ->
  length joiners = pred (length out) ->
  parse_prompts (interleave out joiners) separators deduplicate = Ok out.
Proof.
  cbv zeta.
  set (seps := match separators with None => [","; "."] | Some l => l end).
  assert (Hsome : forall t, parse_prompts t separators deduplicate
                            = parse_prompts t (Some seps) deduplicate).
  { intros t. subst seps. destruct separators; reflexivity. }
  rewrite !Hsome. intros Hparse Hjoin Hlen.
  destruct (class_chars seps) as [|c0 class0] eqn:Hclass.
  - (* no separator character: the text was blank *)
    assert (out = []) as ->.
    { unfold parse_prompts in Hparse.
      destruct (String.eqb (strip text) ""); [congruence|].
      rewrite Hclass in Hparse. discriminate. }
    destruct joiners; [|discriminate]. reflexivity.
  - assert (Hne : class_chars seps <> []) by (rewrite Hclass; discriminate).
    rewrite (parse_prompts_refines text seps deduplicate Hne) in Hparse.
    injection Hparse as Hout.
    rewrite (parse_prompts_refines _ seps deduplicate Hne). f_equal.
    rewrite Hclass in *.
    apply spec_parse_of_interleave.
    + intros p Hp. rewrite <- Hout in Hp.
      exact (spec_parse_In _ _ _ _ Hp).
    + intros ->. rewrite <- Hout. unfold spec_parse. apply first_occurrences_NoDup.
    + eapply Forall_impl; [exact Hjoin|]. intros c. apply existsb_ascii_In.
    + exact Hlen.
Qed.

Lemma parse_prompts_round_trip_witness :
  parse_prompts " cat ,dog.  cat, a bird ." None true = Ok ["cat"; "dog"; "a bird"]
  /\ parse_prompts (interleave ["cat"; "dog"; "a bird"] [","; "."]%char) None true
     = Ok ["cat"; "dog"; "a bird"].
Proof.
  assert (H : parse_prompts " cat ,dog.  cat, a bird ." None true
              = Ok ["cat"; "dog"; "a bird"]) by (vm_compute; reflexivity).
  split; [exact H|].
  apply (parse_prompts_round_trip " cat ,dog.  cat, a bird ." None true
           ["cat"; "dog"; "a bird"] [","; "."]%char H).
  - repeat constructor; vm_compute; tauto.
  - reflexivity.
Defined.

(** X20: a text that holds no separator character is one prompt, the
    trimmed text, or no prompt at all when it is blank. *)
Theorem parse_prompts_without_separator (text : string)
    (separators : list string) (deduplicate : bool) :
  class_chars separators <> [] ->
  (forall c, In c (list_ascii_of_string text) -> ~ In c (class_chars separators)) ->
  parse_prompts text (Some separators) deduplicate
  = Ok (if String.eqb (strip text) "" then [] else [strip text]).
Proof.
  intros Hclass Hfree.
  rewrite (parse_prompts_refines text separators deduplicate Hclass).
  unfold spec_parse. rewrite re_split_no_separator.
  - cbn [map List.filter].
    destruct (String.eqb (strip text) ""); cbn [negb];
      destruct deduplicate; reflexivity.
  - intros c Hc. destruct (existsb (Ascii.eqb c) (class_chars separators)) eqn:E;
      [|reflexivity].
    exfalso. apply (Hfree c Hc). apply existsb_ascii_In, E.
Qed.

Lemma parse_prompts_without_separator_witness :
  parse_prompts "  a red car " (Some [","; "."]) true = Ok ["a red car"].
Proof.
  apply (parse_prompts_without_separator "  a red car " [","; "."] true).
  - discriminate.
  - vm_compute. intros c Hc [<-|[<-|[]]];
      repeat (destruct Hc as [Hc|Hc]; [discriminate Hc|]); exact Hc.
Defined.

(** ** When the mask is resampled *)

Lemma for_each_ext {A S : Type} (body1 body2 : S -> A -> outcome S)
    (l : list A) (acc : S) :
  (forall a x, In x l -> body1 a x = body2 a x) ->
  for_each body1 l acc = for_each body2 l acc.
Proof.
  revert acc. induction l as [|x l IH]; intros acc H; [reflexivity|].
  cbn [for_each]. rewrite (H acc x (or_introl eq_refl)).
  destruct (body2 acc x) as [acc'|e]; [|reflexivity]. cbn [bind].
  apply IH. intros a y Hy. apply H. right. exact Hy.
Qed.

Lemma resample_same_shape (cv2 : Cv2) (mask : Mask) (orig_h orig_w : nat) :
  shape2 mask = (orig_h, orig_w) -> resample cv2 mask orig_h orig_w = Ok mask.
Proof.
  intros H. unfold resample. rewrite H, !Nat.eqb_refl. reflexivity.
Qed.

(** X21: [cv2.resize] is called only for a mask whose shape differs from
    the image's.  When the network returns every mask at the resolution of
    the image, [predict] does not depend on [resize] at all: replacing it
    by any other function, also one that always raises, gives the same
    outcome. *)
Theorem predict_resizes_only_on_mismatch (cv2 : Cv2) (self : Plugin) (m : Model)
    (image : Image) (call_params : gmap string value) (results : list Result)
    (other_resize : Mask -> nat -> nat -> outcome Mask) :
  model self = Some m ->
  call m image
    (Some (get call_params "conf_threshold"
             (get (params self) "conf_threshold" (VNum 0.25))))
    (Some (get call_params "iou_threshold"
             (get (params self) "iou_threshold" (VNum 0.70))))
  = Ok results ->
  (forall result mask_data mask,
      In result results -> masks result = Some mask_data -> In mask mask_data ->
      shape2 mask = shape2 image) ->
  predict
    {| findContours := findContours cv2; contourArea := contourArea cv2;
       arcLength := arcLength cv2; approxPolyDP := approxPolyDP cv2;
       resize := other_resize |}
    self image call_params
  = predict cv2 self image call_params.
Proof.
  intros Hm Hcall Hshape.
  rewrite !(predict_with_model _ self m image call_params Hm), Hcall.
  cbn [bind]. f_equal.
  apply for_each_ext. intros acc result Hresult. unfold result_shapes.
  destruct (masks result) as [mask_data|] eqn:Hmasks; [|reflexivity].
  apply for_each_ext. intros a [i mask] Hitem.
  assert (Hsame : shape2 mask = (fst (shape2 image), snd (shape2 image))).
  { rewrite (Hshape result mask_data mask Hresult Hmasks).
    - destruct (shape2 image). reflexivity.
    - unfold enumerate in Hitem. exact (in_combine_r _ _ _ _ Hitem). }
  unfold mask_instance.
  rewrite !(resample_same_shape _ mask _ _ Hsame). reflexivity.
Qed.

Lemma predict_resizes_only_on_mismatch_witness :
  predict
    {| findContours := standin_findContours; contourArea := standin_contourArea;
       arcLength := standin_arcLength; approxPolyDP := standin_approxPolyDP;
       resize := fun _ _ _ => Err (Exception "cv2.error") |}
    (sample_loaded [sample_result]) sample_image ∅
  = predict standin_cv2 (sample_loaded [sample_result]) sample_image ∅.
Proof.
  apply (predict_resizes_only_on_mismatch standin_cv2
           (sample_loaded [sample_result]) (constant_model [sample_result])
           sample_image ∅ [sample_result]
           (fun _ _ _ => Err (Exception "cv2.error")) eq_refl eq_refl).
  intros result mask_data mask [<-|[]] [= <-] [<-|[]]. reflexivity.
Defined.

(** A mask of another resolution goes through [resize]: when that raises,
    [predict] raises. *)
Example predict_resize_failure :
  predict
    {| findContours := standin_findContours; contourArea := standin_contourArea;
       arcLength := standin_arcLength; approxPolyDP := standin_approxPolyDP;
       resize := fun _ _ _ => Err (Exception "cv2.error") |}
    (sample_loaded [ {| boxes := Some [sample_box];
                        masks := Some [ [ [1; 1]; [1; 1] ]%Q ];
                        names := sample_names |} ])
    sample_image ∅
  = Err (Exception "cv2.error").
Proof. vm_compute. reflexivity. Qed.
